(** * Workspace provisioning handler (appwrite-go-sdk-tutorial)

    A shallow embedding of [functions/create-workspace/main.go] and of the
    shared packages it calls ([shared/middleware/auth.go],
    [shared/models], [shared/services/webhook.go]).

    - Go strings are byte sequences: a [string] whose [ascii] elements are
      the bytes; [len] is [String.length].
    - Go maps with string keys ([Headers], [Env], the document payload) are
      [gmap string string]; indexing a missing key yields the empty string.
    - Calls that leave the process (the platform SDK, the clock, the logger,
      the process environment, standard output) are the constructors of
      [Call]; a handler is a tree of such calls ([Prog]) that is run against
      an arbitrary deterministic [World]. *)

From Stdlib Require Import ZArith List Ascii String Bool Lia DecimalString.
From stdpp Require Import base option list gmap strings infinite fin_sets.

Local Open Scope Z_scope.

(** ** Bytes and UTF-8 (package unicode/utf8) *)

Module utf8.

Definition byte_val (c : ascii) : Z := Z.of_N (N_of_ascii c).
Definition byte_of (z : Z) : ascii := ascii_of_N (Z.to_N (z mod 256)).

Definition RuneError : Z := 65533.
Definition RuneSelf : Z := 128.
Definition MaxRune : Z := 1114111.
Definition UTFMax : nat := 4.

Definition in_range (lo hi x : Z) : bool := (lo <=? x) && (x <=? hi).

(** The [first] table together with [acceptRanges]: for a leading byte,
    the length of the sequence and the range allowed for the second
    byte; [None] for the bytes marked [xx]. ASCII is handled before. *)
Definition first (s0 : Z) : option (nat * (Z * Z)) :=
  if s0 <? 194 then None
  else if s0 <=? 223 then Some (2%nat, (128, 191))
  else if s0 =? 224 then Some (3%nat, (160, 191))
  else if s0 <=? 236 then Some (3%nat, (128, 191))
  else if s0 =? 237 then Some (3%nat, (128, 159))
  else if s0 <=? 239 then Some (3%nat, (128, 191))
  else if s0 =? 240 then Some (4%nat, (144, 191))
  else if s0 <=? 243 then Some (4%nat, (128, 191))
  else if s0 =? 244 then Some (4%nat, (128, 143))
  else None.

Definition cont (c : ascii) : bool := in_range 128 191 (byte_val c).
Definition low6 (c : ascii) : Z := Z.land (byte_val c) 63.

(** [utf8.DecodeRuneInString]: the first rune of [s] and its width in
    bytes; [(RuneError, 0)] on the empty string and [(RuneError, 1)] on
    an invalid encoding. *)
Definition DecodeRune (s : list ascii) : Z * nat :=
  match s with
  | [] => (RuneError, 0%nat)
  | c0 :: t =>
    let s0 := byte_val c0 in
    if s0 <? RuneSelf then (s0, 1%nat)
    else match first s0 with
         | None => (RuneError, 1%nat)
         | Some (sz, (lo, hi)) =>
           if (length s <? sz)%nat then (RuneError, 1%nat)
           else match t with
                | [] => (RuneError, 1%nat)
                | c1 :: t1 =>
                  if negb (in_range lo hi (byte_val c1)) then (RuneError, 1%nat)
                  else if (sz <=? 2)%nat
                  then (Z.lor (Z.shiftl (Z.land s0 31) 6) (low6 c1), 2%nat)
                  else match t1 with
                       | [] => (RuneError, 1%nat)
                       | c2 :: t2 =>
                         if negb (cont c2) then (RuneError, 1%nat)
                         else if (sz <=? 3)%nat
                         then (Z.lor (Z.shiftl (Z.land s0 15) 12)
                                 (Z.lor (Z.shiftl (low6 c1) 6) (low6 c2)), 3%nat)
                         else match t2 with
                              | [] => (RuneError, 1%nat)
                              | c3 :: _ =>
                                if negb (cont c3) then (RuneError, 1%nat)
                                else (Z.lor (Z.shiftl (Z.land s0 7) 18)
                                        (Z.lor (Z.shiftl (low6 c1) 12)
                                           (Z.lor (Z.shiftl (low6 c2) 6) (low6 c3))),
                                      4%nat)
                              end
                       end
                end
         end
  end.

(** [utf8.RuneStart]: the byte is not a continuation byte. *)
Definition RuneStart (c : ascii) : bool := negb (Z.land (byte_val c) 192 =? 128).

(** The backwards scan of [DecodeLastRuneInString]: starting one byte
    before the last, step left while the byte is a continuation byte,
    never further than [lim]. The result is the index [start]. *)
Fixpoint scan_start (s : list ascii) (lim : nat) (steps : nat) (start : Z) : Z :=
  match steps with
  | O => start
  | S steps' =>
    if start <? Z.of_nat lim then start
    else match nth_error s (Z.to_nat start) with
         | Some c => if RuneStart c then start
                     else scan_start s lim steps' (start - 1)
         | None => start
         end
  end.

(** [utf8.DecodeLastRuneInString]. *)
Definition DecodeLastRune (s : list ascii) : Z * nat :=
  let end_ := length s in
  match end_ with
  | O => (RuneError, 0%nat)
  | S start0 =>
    let r := byte_val (nth start0 s zero) in
    if r <? RuneSelf then (r, 1%nat)
    else
      let lim := (end_ - UTFMax)%nat in
      let start := scan_start s lim UTFMax (Z.of_nat start0 - 1) in
      let start := if start <? 0 then 0%nat else Z.to_nat start in
      let '(r, size) := DecodeRune (drop start s) in
      if negb (start + size =? end_)%nat then (RuneError, 1%nat)
      else (r, size)
  end.

(** [utf8.AppendRune] on an empty buffer: the encoding of a rune;
    surrogates and out-of-range values are encoded as [RuneError]. *)
Definition EncodeRune (r : Z) : list ascii :=
  let three (r : Z) :=
    [byte_of (Z.lor 224 (Z.shiftr r 12));
     byte_of (Z.lor 128 (Z.land (Z.shiftr r 6) 63));
     byte_of (Z.lor 128 (Z.land r 63))] in
  if in_range 0 127 r then [byte_of r]
  else if in_range 0 2047 r then
    [byte_of (Z.lor 192 (Z.shiftr r 6)); byte_of (Z.lor 128 (Z.land r 63))]
  else if (r <? 0) || (MaxRune <? r) || in_range 55296 57343 r then three RuneError
  else if r <=? 65535 then three r
  else [byte_of (Z.lor 240 (Z.shiftr r 18));
        byte_of (Z.lor 128 (Z.land (Z.shiftr r 12) 63));
        byte_of (Z.lor 128 (Z.land (Z.shiftr r 6) 63));
        byte_of (Z.lor 128 (Z.land r 63))].

(** The runes a [for _, c := range s] loop visits: invalid bytes are
    visited one at a time as [RuneError]. *)
Fixpoint runes_go (fuel : nat) (s : list ascii) : list Z :=
  match fuel with
  | O => []
  | S fuel' =>
    match s with
    | [] => []
    | _ => let '(r, size) := DecodeRune s in r :: runes_go fuel' (drop size s)
    end
  end.

Definition runes (s : list ascii) : list Z := runes_go (length s) s.

End utf8.

(** ** Package unicode *)

Module unicode.

(** [unicode.IsSpace]: the Latin-1 switch and, above it, the White_Space
    range table. *)
Definition IsSpace (r : Z) : bool :=
  if utf8.in_range 0 255 r then
    utf8.in_range 9 13 r || (r =? 32) || (r =? 133) || (r =? 160)
  else
    (r =? 5760) || utf8.in_range 8192 8202 r || utf8.in_range 8232 8233 r
    || (r =? 8239) || (r =? 8287) || (r =? 12288).

(** [unicode.ToLower]: the ASCII branch is written out in the library;
    above ASCII it consults the [CaseRanges] table, which is taken as the
    parameter [case_lower]. *)
Definition ToLower (case_lower : Z -> Z) (r : Z) : Z :=
  if r <=? 127 then (if utf8.in_range 65 90 r then r + 32 else r)
  else case_lower r.

End unicode.

(** ** Package strings, on byte lists *)

Module strings.
Import utf8.

(** The [asciiSpace] table. *)
Definition asciiSpace (c : ascii) : bool :=
  in_range 9 13 (byte_val c) || (byte_val c =? 32).

Definition isASCII (c : ascii) : bool := byte_val c <? RuneSelf.

(** [strings.TrimLeftFunc]: drop leading runes while [f] holds. *)
Fixpoint trimLeft_go (fuel : nat) (f : Z -> bool) (s : list ascii) : list ascii :=
  match fuel with
  | O => s
  | S fuel' =>
    match s with
    | [] => []
    | _ => let '(r, size) := DecodeRune s in
           if f r then trimLeft_go fuel' f (drop size s) else s
    end
  end.

Definition TrimLeftFunc (f : Z -> bool) (s : list ascii) : list ascii :=
  trimLeft_go (length s) f s.

(** [strings.TrimRightFunc]: drop trailing runes, decoded backwards with
    [DecodeLastRuneInString], while [f] holds. *)
Fixpoint trimRight_go (fuel : nat) (f : Z -> bool) (s : list ascii) : list ascii :=
  match fuel with
  | O => s
  | S fuel' =>
    match s with
    | [] => []
    | _ => let '(r, size) := DecodeLastRune s in
           if f r then trimRight_go fuel' f (take (length s - size) s) else s
    end
  end.

Definition TrimRightFunc (f : Z -> bool) (s : list ascii) : list ascii :=
  trimRight_go (length s) f s.

Definition TrimFunc (f : Z -> bool) (s : list ascii) : list ascii :=
  TrimRightFunc f (TrimLeftFunc f s).

(** The two byte loops of [strings.TrimSpace]: skip ASCII space bytes and
    stop at the first other byte, reporting whether that byte is outside
    ASCII (the Unicode-aware functions then take over). *)
Fixpoint skip_ascii_space (s : list ascii) : list ascii * bool :=
  match s with
  | [] => ([], false)
  | c :: t =>
    if negb (isASCII c) then (s, true)
    else if asciiSpace c then skip_ascii_space t
    else (s, false)
  end.

Definition TrimSpace (s : list ascii) : list ascii :=
  let '(s1, wide) := skip_ascii_space s in
  if wide then TrimFunc unicode.IsSpace s1
  else
    let '(r2, wide2) := skip_ascii_space (rev s1) in
    if wide2 then TrimRightFunc unicode.IsSpace (rev r2)
    else rev r2.

(** [strings.ReplaceAll s old new] for a one-byte [old]. *)
Definition ReplaceAll_byte (old : ascii) (new : list ascii) (s : list ascii)
  : list ascii :=
  flat_map (fun c => if Ascii.eqb c old then new else [c]) s.

(** [strings.Trim s cutset] for a cutset of one ASCII byte:
    [trimLeftByte (trimRightByte s c) c]. *)
Fixpoint trimLeftByte (c : ascii) (s : list ascii) : list ascii :=
  match s with
  | [] => []
  | x :: t => if Ascii.eqb x c then trimLeftByte c t else s
  end.

Definition trimRightByte (c : ascii) (s : list ascii) : list ascii :=
  rev (trimLeftByte c (rev s)).

Definition Trim_byte (c : ascii) (s : list ascii) : list ascii :=
  trimLeftByte c (trimRightByte c s).

(** [strings.Map]: every rune visited by [range s] is mapped and
    re-encoded; a negative result drops the rune. *)
Definition Map (mapping : Z -> Z) (s : list ascii) : list ascii :=
  flat_map (fun c => let r := mapping c in
                     if r <? 0 then [] else EncodeRune r) (runes s).

Definition lower_byte (c : ascii) : ascii :=
  if in_range 65 90 (byte_val c) then byte_of (byte_val c + 32) else c.

(** [strings.ToLower]: the byte loop for all-ASCII strings, [Map
    unicode.ToLower] otherwise. *)
Definition ToLower (case_lower : Z -> Z) (s : list ascii) : list ascii :=
  if forallb isASCII s then map lower_byte s
  else Map (unicode.ToLower case_lower) s.

End strings.

(** ** Package regexp: the two patterns of the handler

    Both patterns are built from classes of ASCII characters. A byte below
    128 is always a rune of its own in UTF-8, and every rune above ASCII
    (as well as the replacement rune the matcher reads for an invalid byte)
    is outside [[a-zA-Z0-9\s\-_]] and inside [[^a-z0-9]]; so matching rune
    by rune and matching byte by byte give the same result. *)

Module regexp.
Import utf8.

Definition is_lower (c : ascii) : bool := in_range 97 122 (byte_val c).
Definition is_upper (c : ascii) : bool := in_range 65 90 (byte_val c).
Definition is_digit (c : ascii) : bool := in_range 48 57 (byte_val c).

(** Perl class [\s] of RE2: tab, newline, form feed, carriage return and
    space (vertical tab is not in it). *)
Definition perl_space (c : ascii) : bool :=
  let b := byte_val c in
  (b =? 9) || (b =? 10) || (b =? 12) || (b =? 13) || (b =? 32).

(** The class [[a-zA-Z0-9\s\-_]]. *)
Definition name_class (c : ascii) : bool :=
  is_lower c || is_upper c || is_digit c || perl_space c
  || (byte_val c =? 45) || (byte_val c =? 95).

(** [regexp.MatchString `^[a-zA-Z0-9\s\-_]+$`]: one or more characters of
    the class between the start and the end of the text. *)
Definition match_name (s : list ascii) : bool :=
  match s with
  | [] => false
  | _ => forallb name_class s
  end.

(** The class [[^a-z0-9]]. *)
Definition not_slug_char (c : ascii) : bool := negb (is_lower c || is_digit c).

(** [ReplaceAllString] for a pattern [cls+]: each maximal run of
    characters of [cls] is replaced by [repl]. [in_run] tells that the
    previous character was part of a run already replaced. *)
Fixpoint replace_runs (cls : ascii -> bool) (repl : list ascii)
         (in_run : bool) (s : list ascii) : list ascii :=
  match s with
  | [] => []
  | c :: t =>
    if cls c then
      (if in_run then replace_runs cls repl true t
       else repl ++ replace_runs cls repl true t)
    else c :: replace_runs cls repl false t
  end.

Definition ReplaceAll_plus (cls : ascii -> bool) (repl s : list ascii) : list ascii :=
  replace_runs cls repl false s.

End regexp.

(** ** Go strings as [string] *)

Abbreviation bytes := list_ascii_of_string.
Abbreviation of_bytes := string_of_list_ascii.

Definition len (s : string) : nat := String.length s.

Definition hyphen : ascii := "-"%char.
Definition NUL : ascii := "000"%char.

Definition strings_TrimSpace (s : string) : string :=
  of_bytes (strings.TrimSpace (bytes s)).

(** [s[:n]] for [n <= len s]. *)
Definition slice_to (n : nat) (s : string) : string := of_bytes (take n (bytes s)).

(** The verb [%d] of package fmt. *)
Definition fmt_d (z : Z) : string := NilZero.string_of_int (Z.to_int z).

(** [m[k]] on a Go map: the zero value when the key is absent. *)
Definition index (m : gmap string string) (k : string) : string :=
  default "" (m !! k).

(** A Go [(value, error)] result; an [error] is represented by its message. *)
Inductive res (A : Type) : Type :=
| Ok (a : A)
| Err (e : string).
Arguments Ok {A} a.
Arguments Err {A} e.

(** ** Package models *)

Record Workspace := {
  Workspace_ID : string;
  Workspace_Name : string;
  Workspace_Slug : string;
  Workspace_TeamID : string;
  Workspace_OwnerID : string;
  Workspace_CreatedAt : string;
  Workspace_Status : string;
  Workspace_Plan : string;
  Workspace_TenantID : string
}.

Record WorkspaceCreateRequest := {
  Req_Name : string;
  Req_Description : string;
  Req_Plan : string
}.

Record WorkspaceResponse := {
  Resp_Success : bool;
  Resp_Workspace : Workspace;
  Resp_Message : string;
  Resp_Error : string
}.

Record APIError := {
  APIError_Code : string;
  APIError_Message : string;
  APIError_Field : string
}.

Record ErrorResponse := {
  ErrorResponse_Success : bool;
  ErrorResponse_Error : APIError
}.

Definition NewErrorResponse (code message field : string) : ErrorResponse :=
  {| ErrorResponse_Success := false;
     ErrorResponse_Error :=
       {| APIError_Code := code;
          APIError_Message := message;
          APIError_Field := field |} |}.

(** ** The function's request and response *)

Record AppwriteFunctionRequest := {
  Headers : gmap string string;
  Body : string;
  Env : gmap string string
}.

Record AppwriteFunctionResponse := {
  StatusCode : Z;
  RespBody : string
}.

(** ** The platform SDK, as far as the handler reads it *)

Record Client := {
  Endpoint : string;
  ClientHeaders : gmap string string
}.

Definition set_Endpoint (c : Client) (e : string) : Client :=
  {| Endpoint := e; ClientHeaders := ClientHeaders c |}.

(** [Client.AddHeader]: [clt.Headers[key] = value]. *)
Definition AddHeader (c : Client) (key value : string) : Client :=
  {| Endpoint := Endpoint c; ClientHeaders := <[key := value]> (ClientHeaders c) |}.

Record User := { User_Id : string; User_Email : string; User_Name : string }.
Record Team := { Team_Id : string }.
Record Document := { Document_Id : string }.

(** ** Package services: the webhook payload and the outbound request *)

Record WebhookPayload := {
  Payload_Event : string;
  Payload_Timestamp : string;
  Payload_Data : gmap string string
}.

Record HttpRequest := {
  Http_Method : string;
  Http_URL : string;
  Http_Header : gmap string string;
  Http_Body : string
}.

(** ** Library functions and tables that are not part of the repository *)

Class GoLib := {
  (** the lower-case mapping of [unicode.CaseRanges], above ASCII *)
  unicode_case_lower : Z -> Z;
  (** [json.Unmarshal] into a [WorkspaceCreateRequest] *)
  json_Unmarshal_WorkspaceCreateRequest : string -> res WorkspaceCreateRequest;
  (** [json.NewDecoder(os.Stdin).Decode] into an [AppwriteFunctionRequest] *)
  json_Decode_AppwriteFunctionRequest : string -> res AppwriteFunctionRequest;
  (** [json.Marshal] at the types the program serialises *)
  json_Marshal_ErrorResponse : ErrorResponse -> string;
  json_Marshal_WorkspaceResponse : WorkspaceResponse -> string;
  json_Marshal_AppwriteFunctionResponse : AppwriteFunctionResponse -> string;
  json_Marshal_WebhookPayload : WebhookPayload -> string;
  (** the error, if any, of [http.NewRequest method url] *)
  http_NewRequest_error : string -> string -> option string;
  (** the SDK's freshly built client: [client.New()] *)
  client_New : Client
}.

(** ** Calls that leave the process *)

Inductive Call : Type -> Type :=
| OsGetenv (key : string) : Call string
| AccountGet (c : Client) : Call (res User)
| TeamsCreate (c : Client) (teamId name : string) : Call (res Team)
| TeamsDelete (c : Client) (teamId : string) : Call (res unit)
| DatabasesCreateDocument (c : Client)
    (databaseId collectionId documentId : string)
    (data : gmap string string) (permissions : list string) : Call (res Document)
| TimeNowRFC3339 : Call string
| LogPrintf (msg : string) : Call unit
| HttpDo (req : HttpRequest) : Call (res Z)
| FmtPrint (s : string) : Call unit.

Inductive Prog (A : Type) : Type :=
| Ret (a : A)
| Do {X : Type} (c : Call X) (k : X -> Prog A).
Arguments Ret {A} a.
Arguments Do {A X} c k.

Fixpoint bind {A B : Type} (m : Prog A) (k : A -> Prog B) : Prog B :=
  match m with
  | Ret a => k a
  | Do c k' => Do c (fun x => bind (k' x) k)
  end.

Definition call {X : Type} (c : Call X) : Prog X := Do c Ret.

#[global] Instance Prog_ret : MRet Prog := @Ret.
#[global] Instance Prog_bind : MBind Prog := fun A B k m => bind m k.

(** One call and the answer it got. *)
Inductive Event : Type :=
| Ev {X : Type} (c : Call X) (x : X).

(** The outside of the process: a state and, for every call, the answer
    and the next state. *)
Record World := {
  wstate : Type;
  wstep : forall X : Type, Call X -> wstate -> X * wstate
}.

Fixpoint run {A : Type} (W : World) (p : Prog A) (s : wstate W)
  : A * wstate W * list Event :=
  match p with
  | Ret a => (a, s, [])
  | Do c k =>
    let '(x, s1) := wstep W _ c s in
    let '(a, s2, t) := run W (k x) s1 in
    (a, s2, Ev c x :: t)
  end.

Definition result_of {A : Type} (W : World) (p : Prog A) (s : wstate W) : A :=
  fst (fst (run W p s)).

Definition trace_of {A : Type} (W : World) (p : Prog A) (s : wstate W) : list Event :=
  snd (run W p s).

(** ** Package middleware (shared/middleware/auth.go) *)

Record SessionInfo := {
  SessionInfo_UserID : string;
  SessionInfo_SessionID : string;
  SessionInfo_Email : string;
  SessionInfo_Name : string
}.

(** [VerifyTrigger]: [None] is the nil error. *)
Definition VerifyTrigger (headers : gmap string string) : option string :=
  let trigger := index headers "x-appwrite-trigger" in
  if decide (trigger = "") then Some "missing x-appwrite-trigger header"
  else None.

(** [SanitizeString]. *)
Definition SanitizeString (input : string) : string :=
  let input := of_bytes (strings.ReplaceAll_byte NUL [] (bytes input)) in
  let input := strings_TrimSpace input in
  if (1000 <? len input)%nat then slice_to 1000 input else input.

(** The names under which [AuthenticateUser] reads the process
    environment, as they stand in the source. The third one is, in the
    source, a literal of 265 characters that has the shape of a server
    API key; only its first characters are kept here. Whatever the name,
    the value read is the answer of the outside world to [OsGetenv]. *)
Definition auth_endpoint_name : string := "https://nyc.cloud.appwrite.io/v1".
Definition auth_project_name : string := "6951e0720014e1d2dcd1".
Definition auth_key_name : string := "standard_9906d29e...".

Section Program.
Context `{GoLib}.

(** [AuthenticateUser]. The account service holds a copy of the client
    whose header map is shared with the original, so the session header
    added after [account.New] is sent with [Get]. *)
Definition AuthenticateUser (headers : gmap string string) : Prog (res SessionInfo) :=
  let sessionToken := index headers "x-appwrite-session" in
  if decide (sessionToken = "") then mret (Err "missing authentication token")
  else
    endpoint ← call (OsGetenv auth_endpoint_name);
    let appwriteClient := set_Endpoint client_New endpoint in
    project ← call (OsGetenv auth_project_name);
    let appwriteClient := AddHeader appwriteClient "X-Appwrite-Project" project in
    key ← call (OsGetenv auth_key_name);
    let appwriteClient := AddHeader appwriteClient "X-Appwrite-Key" key in
    let appwriteClient := AddHeader appwriteClient "X-Appwrite-Session" sessionToken in
    r ← call (AccountGet appwriteClient);
    match r with
    | Err err => mret (Err ("authentication failed: " +:+ err))
    | Ok user =>
      mret (Ok {| SessionInfo_UserID := User_Id user;
                  SessionInfo_SessionID := sessionToken;
                  SessionInfo_Email := User_Email user;
                  SessionInfo_Name := User_Name user |})
    end.

(** [ValidateInput body &createReq]. *)
Definition ValidateInput (body : string) : res WorkspaceCreateRequest :=
  if decide (strings_TrimSpace body = "") then Err "request body is empty"
  else match json_Unmarshal_WorkspaceCreateRequest body with
       | Err err => Err ("invalid JSON: " +:+ err)
       | Ok createReq => Ok createReq
       end.

(** ** functions/create-workspace/main.go *)

(** [respondError]. *)
Definition respondError (statusCode : Z) (code message field : string)
  : AppwriteFunctionResponse :=
  let errorResp := NewErrorResponse code message field in
  {| StatusCode := statusCode;
     RespBody := json_Marshal_ErrorResponse errorResp |}.

(** [generateSlug]. *)
Definition generateSlug (name : string) : string :=
  let slug := strings.ToLower unicode_case_lower (bytes name) in
  let slug := regexp.ReplaceAll_plus regexp.not_slug_char [hyphen] slug in
  let slug := strings.Trim_byte hyphen slug in
  of_bytes slug.

(** [initializeWorkspaceCollection]: the placeholder returns [("", nil)]. *)
Definition initializeWorkspaceCollection
           (dbService : Client) (databaseID workspaceName teamID : string)
  : res string := Ok "".

(** [sendWelcomeWebhook] of main.go: [None] is the nil error. *)
Definition sendWelcomeWebhook (env : gmap string string)
           (workspaceName userEmail teamID : string) : Prog (option string) :=
  let webhookURL := index env "WEBHOOK_URL" in
  if decide (webhookURL = "") then mret (Some "webhook URL not configured")
  else
    let apiKey := index env "WEBHOOK_API_KEY" in
    if decide (apiKey = "") then mret (Some "webhook API key not configured")
    else
      _ ← call (LogPrintf ("Would send webhook to " +:+ webhookURL
                           +:+ " for workspace " +:+ workspaceName
                           +:+ " (team: " +:+ teamID +:+ ")"));
      mret None.

Definition dquote : string := String "034"%char EmptyString.

(** The document payload built at step 8 of the handler. *)
Definition workspaceDoc (workspaceName slug teamId ownerId plan createdAt
                         description : string) : gmap string string :=
  <["description" := description]>
  (<["createdAt" := createdAt]>
  (<["tenantId" := teamId]>
  (<["plan" := plan]>
  (<["status" := "active"]>
  (<["ownerId" := ownerId]>
  (<["teamId" := teamId]>
  (<["slug" := slug]>
  (<["name" := workspaceName]> ∅)))))))).

Definition permissions_for (teamId : string) : list string :=
  [ "read(" +:+ dquote +:+ "team:" +:+ teamId +:+ dquote +:+ ")";
    "write(" +:+ dquote +:+ "team:" +:+ teamId +:+ "[owner]" +:+ dquote +:+ ")" ].

(** [handleRequest]. Every [return] of the source is a leaf of this tree. *)
Definition handleRequest (req : AppwriteFunctionRequest)
  : Prog AppwriteFunctionResponse :=
  (* Step 1 *)
  match VerifyTrigger (Headers req) with
  | Some err => mret (respondError 401 "UNAUTHORIZED" err "")
  | None =>
  (* Step 2 *)
  auth ← AuthenticateUser (Headers req);
  match auth with
  | Err err => mret (respondError 401 "AUTHENTICATION_FAILED" err "")
  | Ok sessionInfo =>
  (* Step 3 *)
  match ValidateInput (Body req) with
  | Err err => mret (respondError 400 "INVALID_INPUT" err "")
  | Ok createReq =>
  (* Step 4 *)
  let workspaceName := SanitizeString (Req_Name createReq) in
  if decide (workspaceName = "") then
    mret (respondError 400 "VALIDATION_ERROR" "Workspace name is required" "name")
  else if (len workspaceName <? 3)%nat || (50 <? len workspaceName)%nat then
    mret (respondError 400 "VALIDATION_ERROR"
            "Workspace name must be between 3 and 50 characters" "name")
  else
  let matched := regexp.match_name (bytes workspaceName) in
  if negb matched then
    mret (respondError 400 "VALIDATION_ERROR"
            "Workspace name contains invalid characters" "name")
  else
  (* Step 5 *)
  let plan := Req_Plan createReq in
  let plan := if decide (plan = "") then "free" else plan in
  (* Step 6 *)
  let appwriteClient := client_New in
  let appwriteClient := set_Endpoint appwriteClient (index (Env req) "APPWRITE_ENDPOINT") in
  let appwriteClient :=
    AddHeader appwriteClient "X-Appwrite-Project" (index (Env req) "APPWRITE_PROJECT_ID") in
  let appwriteClient :=
    AddHeader appwriteClient "X-Appwrite-Key" (index (Env req) "APPWRITE_API_KEY") in
  (* Step 7 *)
  let teamName := workspaceName +:+ " Workspace" in
  created ← call (TeamsCreate appwriteClient "unique()" teamName);
  match created with
  | Err err =>
    _ ← call (LogPrintf ("Error creating team: " +:+ err));
    mret (respondError 500 "TEAM_CREATION_FAILED" "Failed to create workspace team" "")
  | Ok team =>
  (* Step 8 *)
  let databaseID := index (Env req) "6952f51d00043d5bb1d9" in
  let collectionID := index (Env req) "workspaces" in
  let slug := generateSlug workspaceName in
  createdAt ← call TimeNowRFC3339;
  let workspaceDoc :=
    workspaceDoc workspaceName slug (Team_Id team) (SessionInfo_UserID sessionInfo)
                 plan createdAt (Req_Description createReq) in
  let permissions := permissions_for (Team_Id team) in
  stored ← call (DatabasesCreateDocument appwriteClient databaseID collectionID
                   "unique()" workspaceDoc permissions);
  match stored with
  | Err err =>
    _ ← call (LogPrintf ("Error creating workspace document: " +:+ err));
    _ ← call (TeamsDelete appwriteClient (Team_Id team));
    mret (respondError 500 "WORKSPACE_CREATION_FAILED"
            "Failed to create workspace document" "")
  | Ok doc =>
  (* Step 9 *)
  _ ← match initializeWorkspaceCollection appwriteClient databaseID workspaceName
              (Team_Id team) with
      | Err err =>
        call (LogPrintf ("Warning: Failed to initialize workspace collection: " +:+ err))
      | Ok _ => mret tt
      end;
  (* Step 10 *)
  hook ← sendWelcomeWebhook (Env req) workspaceName (SessionInfo_Email sessionInfo)
           (Team_Id team);
  _ ← match hook with
      | Some err => call (LogPrintf ("Warning: Failed to send welcome webhook: " +:+ err))
      | None => mret tt
      end;
  (* Step 11 *)
  let workspace :=
    {| Workspace_ID := Document_Id doc;
       Workspace_Name := workspaceName;
       Workspace_Slug := slug;
       Workspace_TeamID := Team_Id team;
       Workspace_OwnerID := SessionInfo_UserID sessionInfo;
       Workspace_CreatedAt := index workspaceDoc "createdAt";
       Workspace_Status := "active";
       Workspace_Plan := plan;
       Workspace_TenantID := Team_Id team |} in
  let response :=
    {| Resp_Success := true;
       Resp_Workspace := workspace;
       Resp_Message := "Workspace created successfully";
       Resp_Error := "" |} in
  mret {| StatusCode := 200;
          RespBody := json_Marshal_WorkspaceResponse response |}
  end end end end end.

(** The answer of a successful provisioning (step 11). *)
Definition success_response (workspace : Workspace) : AppwriteFunctionResponse :=
  {| StatusCode := 200;
     RespBody :=
       json_Marshal_WorkspaceResponse
         {| Resp_Success := true;
            Resp_Workspace := workspace;
            Resp_Message := "Workspace created successfully";
            Resp_Error := "" |} |}.

(** [main]: [stdin] is what the decoder reads from standard input. *)
Definition main (stdin : string) : Prog unit :=
  match json_Decode_AppwriteFunctionRequest stdin with
  | Err err =>
    let _ := respondError 500 "INVALID_REQUEST" "Failed to parse request" "" in
    mret tt
  | Ok req =>
    response ← handleRequest req;
    let output := json_Marshal_AppwriteFunctionResponse response in
    call (FmtPrint output)
  end.

(** ** shared/services/webhook.go *)

(** [WebhookService.SendWelcomeWebhook]; marshalling a payload of strings
    cannot fail, so that error branch has no leaf. *)
Definition services_SendWelcomeWebhook (workspaceName userEmail teamID : string)
  : Prog (option string) :=
  webhookURL ← call (OsGetenv "WEBHOOK_URL");
  apiKey ← call (OsGetenv "WEBHOOK_API_KEY");
  if bool_decide (webhookURL = "") || bool_decide (apiKey = "") then
    mret (Some "webhook configuration missing")
  else
    now ← call TimeNowRFC3339;
    let payload :=
      {| Payload_Event := "workspace.created";
         Payload_Timestamp := now;
         Payload_Data :=
           <["teamId" := teamID]>
           (<["userEmail" := userEmail]>
           (<["workspaceName" := workspaceName]> ∅)) |} in
    let jsonData := json_Marshal_WebhookPayload payload in
    match http_NewRequest_error "POST" webhookURL with
    | Some err => mret (Some ("failed to create request: " +:+ err))
    | None =>
      let header :=
        <["X-Webhook-Source" := "appwrite-function"]>
        (<["Authorization" := "Bearer " +:+ apiKey]>
        (<["Content-Type" := "application/json"]> ∅)) in
      let req := {| Http_Method := "POST"; Http_URL := webhookURL;
                    Http_Header := header; Http_Body := jsonData |} in
      resp ← call (HttpDo req);
      match resp with
      | Err err => mret (Some ("failed to send webhook: " +:+ err))
      | Ok status =>
        if (status <? 200) || (300 <=? status) then
          mret (Some ("webhook returned status " +:+ fmt_d status))
        else mret None
      end
    end.

End Program.

(** ** What a trace shows *)

(** The external creation calls: team creation and document creation. *)
Definition is_creation_call (e : Event) : bool :=
  match e with
  | Ev c _ =>
    match c with
    | TeamsCreate _ _ _ => true
    | DatabasesCreateDocument _ _ _ _ _ _ => true
    | _ => false
    end
  end.

Definition creation_calls (t : list Event) : list Event :=
  List.filter is_creation_call t.

(** The teams that team-creation calls returned. *)
Definition created_team (e : Event) : option Team :=
  match e with
  | Ev c x =>
    match c in Call T return T -> option Team with
    | TeamsCreate _ _ _ => fun r => match r with Ok team => Some team | Err _ => None end
    | _ => fun _ => None
    end x
  end.

Definition created_teams (t : list Event) : list Team := omap created_team t.

(** The outcome of every document-creation call, in order. *)
Definition document_outcome (e : Event) : option (res Document) :=
  match e with
  | Ev c x =>
    match c in Call T return T -> option (res Document) with
    | DatabasesCreateDocument _ _ _ _ _ _ => fun r => Some r
    | _ => fun _ => None
    end x
  end.

Definition document_outcomes (t : list Event) : list (res Document) :=
  omap document_outcome t.

Definition is_Err {A : Type} (r : res A) : bool :=
  match r with Err _ => true | Ok _ => false end.

Definition is_Ok {A : Type} (r : res A) : bool := negb (is_Err r).

(** The team ids for which a delete was issued. *)
Definition deleted_team (e : Event) : option string :=
  match e with
  | Ev c _ =>
    match c with
    | TeamsDelete _ teamId => Some teamId
    | _ => None
    end
  end.

Definition deleted_teams (t : list Event) : list string := omap deleted_team t.

(** The (database id, collection id) pairs handed to document creation. *)
Definition document_target (e : Event) : option (string * string) :=
  match e with
  | Ev c _ =>
    match c with
    | DatabasesCreateDocument _ databaseId collectionId _ _ _ =>
      Some (databaseId, collectionId)
    | _ => None
    end
  end.

Definition document_targets (t : list Event) : list (string * string) :=
  omap document_target t.

(** The client configuration of the team-creation calls. *)
Definition team_client (e : Event) : option Client :=
  match e with
  | Ev c _ =>
    match c with
    | TeamsCreate cl _ _ => Some cl
    | _ => None
    end
  end.

Definition team_clients (t : list Event) : list Client := omap team_client t.

(** The lines handed to the logger. *)
Definition logged (e : Event) : option string :=
  match e with
  | Ev c _ =>
    match c with
    | LogPrintf msg => Some msg
    | _ => None
    end
  end.

Definition logs (t : list Event) : list string := omap logged t.

(** The outbound HTTP requests. *)
Definition http_request (e : Event) : option HttpRequest :=
  match e with
  | Ev c _ =>
    match c with
    | HttpDo req => Some req
    | _ => None
    end
  end.

Definition http_requests (t : list Event) : list HttpRequest := omap http_request t.

(** What was written to standard output. *)
Definition printed (e : Event) : option string :=
  match e with
  | Ev c _ =>
    match c with
    | FmtPrint s => Some s
    | _ => None
    end
  end.

Definition stdout (t : list Event) : list string := omap printed t.

(** ** A concrete library and a scripted platform, for examples *)

Module Sample.

Definition q (s : string) : string := dquote +:+ s +:+ dquote.

Definition field (k v : string) : string := q k +:+ ":" +:+ q v.

(** The JSON escape of a tab; the samples need no other. *)
Fixpoint escape (s : string) : string :=
  match s with
  | EmptyString => EmptyString
  | String c t =>
    if Ascii.eqb c "009"%char then "\t" +:+ escape t else String c (escape t)
  end.

(** The body with the members name and plan, as JSON text. *)
Definition body_of (name plan : string) : string :=
  "{" +:+ field "name" (escape name) +:+ "," +:+ field "plan" (escape plan) +:+ "}".

Definition acme : WorkspaceCreateRequest :=
  {| Req_Name := "Acme Corp"; Req_Description := ""; Req_Plan := "" |}.

Definition short : WorkspaceCreateRequest :=
  {| Req_Name := "ab"; Req_Description := ""; Req_Plan := "pro" |}.

(** a name with a tab between its two words *)
Definition tabbed_name : string := "ab" +:+ String "009"%char "cd".

Definition tabbed : WorkspaceCreateRequest :=
  {| Req_Name := tabbed_name; Req_Description := ""; Req_Plan := "" |}.

Definition slashed : WorkspaceCreateRequest :=
  {| Req_Name := "ab/cd"; Req_Description := ""; Req_Plan := "" |}.

Definition samples : list WorkspaceCreateRequest := [acme; short; tabbed; slashed].

(** A decoder that knows the sample bodies only. *)
Definition Unmarshal (body : string) : res WorkspaceCreateRequest :=
  match List.find (fun r => String.eqb body (body_of (Req_Name r) (Req_Plan r))) samples with
  | Some r => Ok r
  | None => Err "unexpected end of JSON input"
  end.

Definition Marshal_ErrorResponse (e : ErrorResponse) : string :=
  "{" +:+ q "success" +:+ ":false," +:+ q "error" +:+ ":{"
      +:+ field "code" (APIError_Code (ErrorResponse_Error e)) +:+ ","
      +:+ field "message" (APIError_Message (ErrorResponse_Error e)) +:+ ","
      +:+ field "field" (APIError_Field (ErrorResponse_Error e)) +:+ "}}".

Definition Marshal_Workspace (w : Workspace) : string :=
  "{" +:+ field "id" (Workspace_ID w) +:+ ","
      +:+ field "name" (Workspace_Name w) +:+ ","
      +:+ field "slug" (Workspace_Slug w) +:+ ","
      +:+ field "teamId" (Workspace_TeamID w) +:+ ","
      +:+ field "ownerId" (Workspace_OwnerID w) +:+ ","
      +:+ field "createdAt" (Workspace_CreatedAt w) +:+ ","
      +:+ field "status" (Workspace_Status w) +:+ ","
      +:+ field "plan" (Workspace_Plan w) +:+ ","
      +:+ field "tenantId" (Workspace_TenantID w) +:+ "}".

Definition Marshal_WorkspaceResponse (r : WorkspaceResponse) : string :=
  "{" +:+ q "success" +:+ ":" +:+ (if Resp_Success r then "true" else "false") +:+ ","
      +:+ q "workspace" +:+ ":" +:+ Marshal_Workspace (Resp_Workspace r) +:+ ","
      +:+ field "message" (Resp_Message r) +:+ "}".

Definition Marshal_Response (r : AppwriteFunctionResponse) : string :=
  "{" +:+ q "statusCode" +:+ ":" +:+ fmt_d (StatusCode r) +:+ ","
      +:+ field "body" (RespBody r) +:+ "}".

Definition Marshal_WebhookPayload (p : WebhookPayload) : string :=
  "{" +:+ field "event" (Payload_Event p) +:+ ","
      +:+ field "timestamp" (Payload_Timestamp p) +:+ ","
      +:+ field "teamId" (index (Payload_Data p) "teamId") +:+ "}".

Definition lib : GoLib :=
  {| unicode_case_lower := fun r => r;
     json_Unmarshal_WorkspaceCreateRequest := Unmarshal;
     json_Decode_AppwriteFunctionRequest := fun _ => Err "EOF";
     json_Marshal_ErrorResponse := Marshal_ErrorResponse;
     json_Marshal_WorkspaceResponse := Marshal_WorkspaceResponse;
     json_Marshal_AppwriteFunctionResponse := Marshal_Response;
     json_Marshal_WebhookPayload := Marshal_WebhookPayload;
     http_NewRequest_error := fun _ _ => None;
     client_New := {| Endpoint := "https://cloud.appwrite.io/v1";
                      ClientHeaders := ∅ |} |}.

(** The platform's answers, fixed in advance. *)
Record Script := {
  account_ok : bool;
  team_ok : bool;
  document_ok : bool
}.

Definition answer (X : Type) (c : Call X) (s : Script) : X * Script :=
  match c in Call T return T * Script with
  | OsGetenv _ => ("", s)
  | AccountGet _ =>
    (if account_ok s
     then Ok {| User_Id := "user-1"; User_Email := "ada@example.org";
                User_Name := "Ada" |}
     else Err "general_unauthorized_scope", s)
  | TeamsCreate _ _ _ =>
    (if team_ok s then Ok {| Team_Id := "team-1" |} else Err "team_limit", s)
  | TeamsDelete _ _ => (Ok tt, s)
  | DatabasesCreateDocument _ _ _ _ _ _ =>
    (if document_ok s then Ok {| Document_Id := "doc-1" |}
     else Err "collection_not_found", s)
  | TimeNowRFC3339 => ("2026-01-01T00:00:00Z", s)
  | LogPrintf _ => (tt, s)
  | HttpDo _ => (Ok 200, s)
  | FmtPrint _ => (tt, s)
  end.

Definition platform : World := {| wstate := Script; wstep := answer |}.

Definition all_ok : Script :=
  {| account_ok := true; team_ok := true; document_ok := true |}.

Definition document_fails : Script :=
  {| account_ok := true; team_ok := true; document_ok := false |}.

Definition headers : gmap string string :=
  <["x-appwrite-session" := "session-token"]> (<["x-appwrite-trigger" := "http"]> ∅).

(** The environment of the deployment guide. *)
Definition env : gmap string string :=
  <["APPWRITE_WORKSPACES_COLLECTION_ID" := "workspaces-collection"]>
  (<["APPWRITE_DATABASE_ID" := "main-db"]>
  (<["APPWRITE_API_KEY" := "key"]>
  (<["APPWRITE_PROJECT_ID" := "project"]>
  (<["APPWRITE_ENDPOINT" := "https://cloud.appwrite.io/v1"]> ∅)))).

Definition env_with_webhook : gmap string string :=
  <["WEBHOOK_API_KEY" := "hook-key"]>
  (<["WEBHOOK_URL" := "https://hooks.example.org/welcome"]> env).

(** The session that the scripted account service confirms. *)
Definition session : SessionInfo :=
  {| SessionInfo_UserID := "user-1";
     SessionInfo_SessionID := "session-token";
     SessionInfo_Email := "ada@example.org";
     SessionInfo_Name := "Ada" |}.

Definition request (r : WorkspaceCreateRequest) (e : gmap string string)
  : AppwriteFunctionRequest :=
  {| Headers := headers; Body := body_of (Req_Name r) (Req_Plan r); Env := e |}.

End Sample.

(** ** Slug derivation as the specification words it

    Lower-case the name, cut it at every character that is not
    alphanumeric, keep the pieces that are not empty (the words) and join
    them with one hyphen. *)

Module SlugSpec.

(** The pieces between separators; a separator at either end, or two in
    a row, give an empty piece. *)
Fixpoint fields (sep : ascii -> bool) (s : list ascii) : list (list ascii) :=
  match s with
  | [] => [[]]
  | c :: t =>
    if sep c then [] :: fields sep t
    else match fields sep t with
         | w :: ws => (c :: w) :: ws
         | [] => [[c]]
         end
  end.

Definition nonempty (w : list ascii) : bool :=
  match w with [] => false | _ :: _ => true end.

Definition words (sep : ascii -> bool) (s : list ascii) : list (list ascii) :=
  List.filter nonempty (fields sep s).

Fixpoint join (sep : list ascii) (ws : list (list ascii)) : list ascii :=
  match ws with
  | [] => []
  | w :: rest =>
    match rest with
    | [] => w
    | _ :: _ => w ++ sep ++ join sep rest
    end
  end.

Definition slug `{GoLib} (name : string) : string :=
  of_bytes (join [hyphen]
              (words regexp.not_slug_char
                 (strings.ToLower unicode_case_lower (bytes name)))).

End SlugSpec.

(** ** Character classes named by the specification *)

(** The class [[A-Za-z0-9 _-]]: letters, digits, the space character,
    underscore and hyphen. *)
Definition spec_name_class (c : ascii) : bool :=
  regexp.is_lower c || regexp.is_upper c || regexp.is_digit c
  || (utf8.byte_val c =? 32) || (utf8.byte_val c =? 95) || (utf8.byte_val c =? 45).

(** A control code: below the space character, or DEL. *)
Definition is_control (c : ascii) : bool :=
  (utf8.byte_val c <? 32) || (utf8.byte_val c =? 127).

(** The request got past the trigger check, authentication and the parsing
    of its body, so that the handler computes a sanitized name. *)
Definition reaches_validation `{GoLib} (W : World) (s : wstate W)
           (req : AppwriteFunctionRequest) (sessionInfo : SessionInfo)
           (createReq : WorkspaceCreateRequest) : Prop :=
  VerifyTrigger (Headers req) = None
  /\ result_of W (AuthenticateUser (Headers req)) s = Ok sessionInfo
  /\ ValidateInput (Body req) = Ok createReq.

(** The sanitized name passes the three checks of step 4. *)
Definition valid_name (name : string) : bool :=
  negb (bool_decide (name = ""))
  && negb ((len name <? 3)%nat || (50 <? len name)%nat)
  && regexp.match_name (bytes name).

(** ** A reference platform with a store

    The platform that owns teams and documents is an external service,
    not part of the repository. This reference model keeps what the
    specification says of it: teams are created under
    identifiers the platform generates, documents are stored with their
    payload, a team can be deleted, and any call may fail. [succeeds]
    tells, call after call, which platform calls go through. *)

Module Platform.

Record Store := {
  teams : gset string;
  documents : list (gmap string string);
  ticks : nat
}.

Definition tick (st : Store) : Store :=
  {| teams := teams st; documents := documents st; ticks := S (ticks st) |}.

Definition step (succeeds : nat -> bool) (X : Type) (c : Call X) (st : Store)
  : X * Store :=
  match c in Call T return T * Store with
  | OsGetenv _ => ("", st)
  | AccountGet _ =>
    (if succeeds (ticks st)
     then Ok {| User_Id := "user-1"; User_Email := "ada@example.org"; User_Name := "Ada" |}
     else Err "user_unauthorized", tick st)
  | TeamsCreate _ _ _ =>
    if succeeds (ticks st) then
      let id := fresh (teams st) in
      (Ok {| Team_Id := id |},
       {| teams := {[id]} ∪ teams st; documents := documents st;
          ticks := S (ticks st) |})
    else (Err "team_creation_failed", tick st)
  | TeamsDelete _ teamId =>
    if succeeds (ticks st) then
      (Ok tt,
       {| teams := teams st ∖ {[teamId]}; documents := documents st;
          ticks := S (ticks st) |})
    else (Err "team_not_found", tick st)
  | DatabasesCreateDocument _ _ _ _ data _ =>
    if succeeds (ticks st) then
      (Ok {| Document_Id := "document" |},
       {| teams := teams st; documents := data :: documents st;
          ticks := S (ticks st) |})
    else (Err "document_creation_failed", tick st)
  | TimeNowRFC3339 => ("2026-01-01T00:00:00Z", st)
  | LogPrintf _ => (tt, st)
  | HttpDo _ => (Ok 200, st)
  | FmtPrint _ => (tt, st)
  end.

Definition world (succeeds : nat -> bool) : World :=
  {| wstate := Store; wstep := step succeeds |}.

(** The invariant of the data model: every stored workspace document
    names, as its teamId, a team that exists. *)
Definition referential (st : Store) : Prop :=
  forall d : gmap string string,
    In d (documents st) ->
    exists teamId : string, d !! "teamId" = Some teamId /\ teamId ∈ teams st.

End Platform.

Definition state_of {A : Type} (W : World) (p : Prog A) (s : wstate W) : wstate W :=
  snd (fst (run W p s)).

(** ** More of what a trace shows *)

(** The outcome of every team-creation call, in order. *)
Definition team_outcome (e : Event) : option (res Team) :=
  match e with
  | Ev c x =>
    match c in Call T return T -> option (res Team) with
    | TeamsCreate _ _ _ => fun r => Some r
    | _ => fun _ => None
    end x
  end.

Definition team_outcomes (t : list Event) : list (res Team) := omap team_outcome t.

(** The (team id, name) arguments of the team-creation calls. *)
Definition team_call (e : Event) : option (string * string) :=
  match e with
  | Ev c _ =>
    match c with
    | TeamsCreate _ teamId name => Some (teamId, name)
    | _ => None
    end
  end.

Definition team_calls (t : list Event) : list (string * string) := omap team_call t.

(** The document id, payload and permissions of the document-creation
    calls. *)
Definition document_call (e : Event)
  : option (string * gmap string string * list string) :=
  match e with
  | Ev c _ =>
    match c with
    | DatabasesCreateDocument _ _ _ documentId data permissions =>
      Some (documentId, data, permissions)
    | _ => None
    end
  end.

Definition document_calls (t : list Event)
  : list (string * gmap string string * list string) := omap document_call t.

(** The names looked up in the process environment, with the values
    read. *)
Definition env_read (e : Event) : option (string * string) :=
  match e with
  | Ev c x =>
    match c in Call T return T -> option (string * string) with
    | OsGetenv key => fun v => Some (key, v)
    | _ => fun _ => None
    end x
  end.

Definition env_reads (t : list Event) : list (string * string) := omap env_read t.

(** The clients handed to the account service. *)
Definition account_call (e : Event) : option Client :=
  match e with
  | Ev c _ =>
    match c with
    | AccountGet cl => Some cl
    | _ => None
    end
  end.

Definition account_calls (t : list Event) : list Client := omap account_call t.

(** The outbound HTTP requests with their outcome. *)
Definition http_outcome (e : Event) : option (HttpRequest * res Z) :=
  match e with
  | Ev c x =>
    match c in Call T return T -> option (HttpRequest * res Z) with
    | HttpDo req => fun r => Some (req, r)
    | _ => fun _ => None
    end x
  end.

Definition http_outcomes (t : list Event) : list (HttpRequest * res Z) :=
  omap http_outcome t.

(** The values the clock gave. *)
Definition clock_read (e : Event) : option string :=
  match e with
  | Ev c x =>
    match c in Call T return T -> option string with
    | TimeNowRFC3339 => fun v => Some v
    | _ => fun _ => None
    end x
  end.

Definition clock_reads (t : list Event) : list string := omap clock_read t.

(** ** Character predicates used in statements *)

(** An ASCII byte that is not in the [asciiSpace] table. *)
Definition ascii_nonspace (c : ascii) : bool :=
  strings.isASCII c && negb (strings.asciiSpace c).

(** An ASCII letter or digit. *)
Definition is_alnum (c : ascii) : bool :=
  regexp.is_lower c || regexp.is_upper c || regexp.is_digit c.

(** ** [strings.HasPrefix] and [strings.Contains], on byte lists *)

Fixpoint strings_HasPrefix (s prefix : list ascii) {struct prefix} : bool :=
  match prefix with
  | [] => true
  | p :: prefix' =>
    match s with
    | [] => false
    | c :: s' => Ascii.eqb c p && strings_HasPrefix s' prefix'
    end
  end.

(** [strings.Contains s substr]: [substr] starts at some index of [s]. *)
Fixpoint strings_Contains (s substr : list ascii) : bool :=
  strings_HasPrefix s substr
  || match s with
     | [] => false
     | _ :: s' => strings_Contains s' substr
     end.

(** ** Package middleware: the team service

    [TeamsCreate] is the call the handler makes too. The other two calls
    of the SDK that the service uses, [CreateMembership] and [List], are
    taken as functions on the platform's state. *)

Record TeamService := {
  TeamService_client : Client;
  TeamService_teams : Client
}.

Record Membership := { Membership_Id : string }.

Record TeamList := {
  TeamList_Total : Z;
  TeamList_Teams : list Team
}.

Section TeamServiceProgram.
Context `{GoLib}.

(** [NewTeamService]: its error is always nil. *)
Definition NewTeamService : Prog (res TeamService) :=
  endpoint ← call (OsGetenv "APPWRITE_ENDPOINT");
  let appwriteClient := set_Endpoint client_New endpoint in
  project ← call (OsGetenv "APPWRITE_PROJECT_ID");
  let appwriteClient := AddHeader appwriteClient "X-Appwrite-Project" project in
  key ← call (OsGetenv "APPWRITE_API_KEY");
  let appwriteClient := AddHeader appwriteClient "X-Appwrite-Key" key in
  let teamsService := appwriteClient in
  mret (Ok {| TeamService_client := appwriteClient;
              TeamService_teams := teamsService |}).

(** [TeamService.CreateTeamForWorkspace]. *)
Definition CreateTeamForWorkspace (ts : TeamService) (name ownerID : string)
  : Prog (res string) :=
  created ← call (TeamsCreate (TeamService_teams ts) "unique()" name);
  match created with
  | Err err => mret (Err ("failed to create team: " +:+ err))
  | Ok team => mret (Ok (Team_Id team))
  end.

End TeamServiceProgram.

Section TeamServiceCalls.
Context {S : Type}.

(** [teams.CreateMembership teamId roles] and [teams.List]. *)
Variable teams_CreateMembership :
  Client -> string -> list string -> S -> res Membership * S.
Variable teams_List : Client -> S -> res TeamList * S.

(** [TeamService.AssignTeamRole]: [None] is the nil error. *)
Definition AssignTeamRole (ts : TeamService) (teamID userID role : string) (s : S)
  : option string * S :=
  let '(r, s1) := teams_CreateMembership (TeamService_teams ts) teamID [role] s in
  match r with
  | Err err =>
    if negb (strings_Contains (bytes err) (bytes "already exists"))
    then (Some ("failed to assign team role: " +:+ err), s1)
    else (None, s1)
  | Ok _ => (None, s1)
  end.

(** [TeamService.GetUserTeams]: the loop appends the id of every listed
    team. *)
Definition GetUserTeams (ts : TeamService) (userID : string) (s : S)
  : res (list string) * S :=
  let '(r, s1) := teams_List (TeamService_teams ts) s in
  match r with
  | Err err => (Err ("failed to list teams: " +:+ err), s1)
  | Ok teamsList =>
    let teamIDs :=
      fold_left (fun (teamIDs : list string) (team : Team) => teamIDs ++ [Team_Id team])
                (TeamList_Teams teamsList) [] in
    (Ok teamIDs, s1)
  end.

End TeamServiceCalls.

(** ** More samples *)

Module Sample2.

(** A library whose decoder of standard input knows one payload. *)
Definition stdin_text : string := "payload".

Definition lib : GoLib :=
  {| unicode_case_lower := fun r => r;
     json_Unmarshal_WorkspaceCreateRequest := Sample.Unmarshal;
     json_Decode_AppwriteFunctionRequest :=
       fun text => if String.eqb text stdin_text
                   then Ok (Sample.request Sample.acme Sample.env)
                   else Err "EOF";
     json_Marshal_ErrorResponse := Sample.Marshal_ErrorResponse;
     json_Marshal_WorkspaceResponse := Sample.Marshal_WorkspaceResponse;
     json_Marshal_AppwriteFunctionResponse := Sample.Marshal_Response;
     json_Marshal_WebhookPayload := Sample.Marshal_WebhookPayload;
     http_NewRequest_error := fun _ _ => None;
     client_New := {| Endpoint := "https://cloud.appwrite.io/v1";
                      ClientHeaders := ∅ |} |}.

Definition no_account : Sample.Script :=
  {| Sample.account_ok := false; Sample.team_ok := true; Sample.document_ok := true |}.

Definition no_team : Sample.Script :=
  {| Sample.account_ok := true; Sample.team_ok := false; Sample.document_ok := true |}.

(** A request without any header. *)
Definition bare_request : AppwriteFunctionRequest :=
  {| Headers := ∅; Body := ""; Env := ∅ |}.

(** A request with the trigger header only. *)
Definition triggered_request : AppwriteFunctionRequest :=
  {| Headers := <["x-appwrite-trigger" := "http"]> ∅; Body := ""; Env := ∅ |}.

(** A request whose body is cut short. *)
Definition truncated_request : AppwriteFunctionRequest :=
  {| Headers := Sample.headers; Body := "{"; Env := Sample.env |}.

End Sample2.

(** * Properties *)

(** ** Byte lists and strings *)

Lemma bytes_of_bytes (l : list ascii) : bytes (of_bytes l) = l.
Proof. apply list_ascii_of_string_of_list_ascii. Qed.

Lemma of_bytes_bytes (s : string) : of_bytes (bytes s) = s.
Proof. apply string_of_list_ascii_of_string. Qed.

Lemma len_of_bytes (l : list ascii) : len (of_bytes l) = length l.
Proof.
  unfold len. induction l as [|c l IH]; simpl; [reflexivity | now rewrite IH].
Qed.

Lemma len_bytes (s : string) : length (bytes s) = len s.
Proof. rewrite <- (of_bytes_bytes s) at 2. symmetry. apply len_of_bytes. Qed.

(** ** Slug derivation *)

Section Slug.
Import regexp strings SlugSpec.

Variable sep : ascii -> bool.
Variable c0 : ascii.
Hypothesis sep_c0 : sep c0 = true.

Local Abbreviation R := (replace_runs sep [c0]).
Local Abbreviation T := (trimRightByte c0).
Local Abbreviation g := (fun l => join [c0] (words sep l)).

Lemma eqb_c0_false (c : ascii) : sep c = false -> Ascii.eqb c c0 = false.
Proof.
  intros Hc. destruct (Ascii.eqb_spec c c0) as [->|]; [congruence | reflexivity].
Qed.

(** Inside a run the replacement was already written: the rest of the
    run vanishes. *)
Lemma replace_runs_sep (b : bool) (c : ascii) (t : list ascii) :
  sep c = true ->
  R b (c :: t) = (if b then [] else [c0]) ++ R true t.
Proof. intros Hc. simpl. rewrite Hc. destruct b; reflexivity. Qed.

Lemma replace_runs_keep (b : bool) (c : ascii) (t : list ascii) :
  sep c = false -> R b (c :: t) = c :: R false t.
Proof. intros Hc. simpl. rewrite Hc. reflexivity. Qed.

(** Trimming on the right, read from the left. *)
Lemma trimLeftByte_app_one (l : list ascii) (a : ascii) :
  trimLeftByte c0 (l ++ [a]) =
  match trimLeftByte c0 l with
  | [] => if Ascii.eqb a c0 then [] else [a]
  | y => y ++ [a]
  end.
Proof.
  induction l as [|x l IH]; simpl.
  - reflexivity.
  - destruct (Ascii.eqb x c0); [exact IH | reflexivity].
Qed.

Lemma trimRightByte_cons (a : ascii) (x : list ascii) :
  T (a :: x) =
  match T x with
  | [] => if Ascii.eqb a c0 then [] else [a]
  | y => a :: y
  end.
Proof.
  unfold trimRightByte. simpl rev at 2. rewrite trimLeftByte_app_one.
  destruct (trimLeftByte c0 (rev x)) as [|z zs] eqn:E.
  - simpl. destruct (Ascii.eqb a c0); reflexivity.
  - cbv iota. rewrite rev_app_distr. change (rev [a]) with [a].
    change ([a] ++ rev (z :: zs)) with (a :: rev (z :: zs)).
    destruct (rev (z :: zs)) eqn:E'; [|reflexivity].
    apply (f_equal (@length ascii)) in E'. rewrite length_rev in E'. discriminate.
Qed.

Lemma trimRightByte_nil : T [] = [].
Proof. reflexivity. Qed.

(** The words are not empty, so joining them gives the empty list only
    when there is no word. *)
Lemma join_nil_inv (ws : list (list ascii)) :
  Forall (fun w => nonempty w = true) ws -> join [c0] ws = [] -> ws = [].
Proof.
  intros Hne Hj. destruct ws as [|w rest]; [reflexivity|].
  inversion Hne as [|? ? Hw _]; subst.
  destruct w as [|x w]; [discriminate|].
  simpl in Hj. destruct rest; discriminate.
Qed.

Lemma words_nonempty (l : list ascii) :
  Forall (fun w => nonempty w = true) (words sep l).
Proof.
  unfold words. apply List.Forall_forall. intros w Hw.
  apply filter_In in Hw. exact (proj2 Hw).
Qed.

Lemma fields_not_nil (l : list ascii) : fields sep l <> [].
Proof.
  induction l as [|c t IH]; simpl; [discriminate|].
  destruct (sep c); [discriminate|]. destruct (fields sep t); discriminate.
Qed.

Lemma words_sep (c : ascii) (t : list ascii) :
  sep c = true -> words sep (c :: t) = words sep t.
Proof. intros Hc. unfold words. simpl. rewrite Hc. reflexivity. Qed.

(** A kept character starts a word or extends the first word of the rest. *)
Lemma join_words_keep (c : ascii) (t : list ascii) :
  sep c = false ->
  g (c :: t) =
  match t with
  | [] => [c]
  | d :: _ =>
    if sep d then
      match g t with
      | [] => [c]
      | y => c :: c0 :: y
      end
    else c :: g t
  end.
Proof.
  intros Hc. cbv beta. unfold words. simpl fields. rewrite Hc.
  destruct t as [|d t'].
  - reflexivity.
  - simpl fields. destruct (sep d) eqn:Hd.
    + change (List.filter nonempty ((c :: []) :: fields sep t'))
        with ([c] :: List.filter nonempty (fields sep t')).
      change (List.filter nonempty ([] :: fields sep t'))
        with (List.filter nonempty (fields sep t')).
      simpl join at 1.
      destruct (List.filter nonempty (fields sep t')) as [|w ws] eqn:E.
      * reflexivity.
      * assert (Hne : join [c0] (w :: ws) <> []).
        { intros Hj. apply join_nil_inv in Hj; [discriminate|].
          rewrite <- E. apply (words_nonempty t'). }
        destruct (join [c0] (w :: ws)) eqn:Ej; [contradiction|]. reflexivity.
    + destruct (fields sep t') as [|w ws] eqn:E.
      * exfalso. exact (fields_not_nil t' E).
      * change (List.filter nonempty ((c :: d :: w) :: ws))
          with ((c :: d :: w) :: List.filter nonempty ws).
        change (List.filter nonempty ((d :: w) :: ws))
          with ((d :: w) :: List.filter nonempty ws).
        simpl. destruct (List.filter nonempty ws); reflexivity.
Qed.

(** Trimming the replaced text on the right gives the joined words. *)
Lemma trimRight_replace_runs (l : list ascii) : T (R true l) = g l.
Proof.
  induction l as [|c t IH].
  - reflexivity.
  - destruct (sep c) eqn:Hc.
    + rewrite replace_runs_sep by exact Hc. simpl app.
      cbv beta. rewrite words_sep by exact Hc. exact IH.
    + rewrite replace_runs_keep by exact Hc.
      rewrite join_words_keep by exact Hc.
      rewrite trimRightByte_cons. rewrite (eqb_c0_false c Hc).
      destruct t as [|d t'].
      * reflexivity.
      * destruct (sep d) eqn:Hd.
        -- rewrite replace_runs_sep by exact Hd. simpl app.
           rewrite trimRightByte_cons. rewrite Ascii.eqb_refl.
           rewrite replace_runs_sep in IH by exact Hd. simpl app in IH.
           rewrite IH. cbv beta. destruct (join [c0] (words sep (d :: t'))); reflexivity.
        -- rewrite replace_runs_keep in IH by exact Hd.
           rewrite replace_runs_keep by exact Hd. rewrite IH.
           cbv beta.
           pose proof (join_words_keep d t' Hd) as Hg. cbv beta in Hg.
           destruct (join [c0] (words sep (d :: t'))) eqn:Ej; [|reflexivity].
           exfalso. destruct t' as [|e t'']; [discriminate|].
           destruct (sep e); [|discriminate].
           destruct (join [c0] (words sep (e :: t''))); discriminate.
Qed.

(** The replaced text of a string read inside a run is empty or starts
    with a kept character. *)
Lemma replace_runs_head (l : list ascii) :
  match R true l with
  | [] => True
  | x :: _ => sep x = false
  end.
Proof.
  induction l as [|c t IH]; simpl; [exact I|].
  destruct (sep c) eqn:Hc; [exact IH | exact Hc].
Qed.

Lemma trimRightByte_head (x : list ascii) :
  match x with
  | [] => True
  | a :: _ => sep a = false
  end ->
  match T x with
  | [] => True
  | a :: _ => sep a = false
  end.
Proof.
  destruct x as [|a x]; [intros _; exact I|].
  intros Ha. rewrite trimRightByte_cons.
  destruct (T x); [|exact Ha].
  rewrite (eqb_c0_false a Ha). exact Ha.
Qed.

Lemma trimLeftByte_id (x : list ascii) :
  match x with
  | [] => True
  | a :: _ => sep a = false
  end ->
  trimLeftByte c0 x = x.
Proof.
  destruct x as [|a x]; [reflexivity|].
  intros Ha. simpl. rewrite (eqb_c0_false a Ha). reflexivity.
Qed.

(** Replacing every run of separators by the separator [c0] and trimming
    [c0] at both ends is joining the words with [c0]. *)
Lemma trim_replace_runs (l : list ascii) :
  Trim_byte c0 (ReplaceAll_plus sep [c0] l) = g l.
Proof.
  unfold Trim_byte, ReplaceAll_plus.
  assert (Hhead : match g l with [] => True | a :: _ => sep a = false end).
  { rewrite <- trimRight_replace_runs. apply trimRightByte_head, replace_runs_head. }
  destruct l as [|c t]; [reflexivity|].
  destruct (sep c) eqn:Hc.
  - rewrite replace_runs_sep by exact Hc. simpl app.
    rewrite trimRightByte_cons, Ascii.eqb_refl, trimRight_replace_runs.
    cbv beta in *. rewrite words_sep in * by exact Hc.
    destruct (join [c0] (words sep t)) as [|a y]; [reflexivity|].
    simpl. rewrite Ascii.eqb_refl, (eqb_c0_false a Hhead). reflexivity.
  - rewrite (replace_runs_keep false c t Hc), <- (replace_runs_keep true c t Hc).
    rewrite trimRight_replace_runs. apply trimLeftByte_id. exact Hhead.
Qed.

End Slug.

Lemma hyphen_is_separator : regexp.not_slug_char hyphen = true.
Proof. reflexivity. Qed.

(** Every character of a word is a lower-case letter or a digit. *)
Lemma fields_chars (sep : ascii -> bool) (l : list ascii) :
  Forall (Forall (fun c => sep c = false)) (SlugSpec.fields sep l).
Proof.
  induction l as [|c t IH]; simpl.
  - repeat constructor.
  - destruct (sep c) eqn:Hc.
    + constructor; [constructor | exact IH].
    + destruct (SlugSpec.fields sep t) as [|w ws].
      * repeat constructor. exact Hc.
      * inversion IH; subst. constructor; [constructor; assumption | assumption].
Qed.

Lemma join_chars (P : ascii -> Prop) (c0 : ascii) (ws : list (list ascii)) :
  P c0 -> Forall (Forall P) ws -> Forall P (SlugSpec.join [c0] ws).
Proof.
  intros H0 Hws. induction Hws as [|w rest Hw Hrest IH]; simpl.
  - constructor.
  - destruct rest as [|w' rest']; [exact Hw|].
    apply Forall_app. split; [exact Hw|]. constructor; [exact H0 | exact IH].
Qed.

Section SlugTheorems.
Context `{GoLib}.

Lemma generateSlug_is_spec_slug (name : string) :
  generateSlug name = SlugSpec.slug name.
Proof.
  unfold generateSlug, SlugSpec.slug. f_equal.
  apply trim_replace_runs. exact hyphen_is_separator.
Qed.

(** C6: slug derivation is a function of the name alone that lower-cases
    it, replaces every run of characters other than [a-z0-9] by one
    hyphen and trims the hyphens at both ends, which is to say it joins
    the alphanumeric words of the lower-cased name with single hyphens;
    it maps "My  Workspace!!" to "my-workspace" and "  --Foo--  " to
    "foo". *)
Theorem generateSlug_joins_words :
  (forall name : string, generateSlug name = SlugSpec.slug name)
  /\ generateSlug "My  Workspace!!" = "my-workspace"
  /\ generateSlug "  --Foo--  " = "foo".
Proof.
  split; [exact generateSlug_is_spec_slug | split; reflexivity].
Qed.

(** X22: the slug is made of lower-case letters, digits and hyphens. *)
Lemma generateSlug_chars (name : string) :
  Forall (fun c => regexp.is_lower c || regexp.is_digit c = true \/ c = hyphen)
         (bytes (generateSlug name)).
Proof.
  rewrite generateSlug_is_spec_slug. unfold SlugSpec.slug.
  rewrite bytes_of_bytes. apply join_chars; [right; reflexivity|].
  unfold SlugSpec.words.
  apply Forall_forall. intros w Hw. apply list_elem_of_In, filter_In in Hw.
  destruct Hw as [Hw _]. apply list_elem_of_In in Hw.
  pose proof (fields_chars regexp.not_slug_char
                (strings.ToLower unicode_case_lower (bytes name))) as Hf.
  rewrite Forall_forall in Hf. specialize (Hf w Hw).
  eapply Forall_impl; [exact Hf|]. intros c Hc. left.
  unfold regexp.not_slug_char in Hc. now apply negb_false_iff in Hc.
Qed.

End SlugTheorems.

(** ** Sanitization *)

Section Sanitize.
Import strings utf8.

Lemma trimLeft_go_sublist (f : Z -> bool) (fuel : nat) (s : list ascii) :
  trimLeft_go fuel f s `sublist_of` s.
Proof.
  revert s. induction fuel as [|fuel IH]; intros s; simpl; [reflexivity|].
  destruct s as [|c t]; [reflexivity|].
  destruct (DecodeRune (c :: t)) as [r size]. destruct (f r); [|reflexivity].
  etransitivity; [apply IH | apply sublist_drop].
Qed.

Lemma trimRight_go_sublist (f : Z -> bool) (fuel : nat) (s : list ascii) :
  trimRight_go fuel f s `sublist_of` s.
Proof.
  revert s. induction fuel as [|fuel IH]; intros s; simpl; [reflexivity|].
  destruct s as [|c t]; [reflexivity|].
  destruct (DecodeLastRune (c :: t)) as [r size]. destruct (f r); [|reflexivity].
  etransitivity; [apply IH | apply sublist_take].
Qed.

Lemma skip_ascii_space_sublist (s : list ascii) :
  fst (skip_ascii_space s) `sublist_of` s.
Proof.
  induction s as [|c t IH]; simpl; [reflexivity|].
  destruct (negb (isASCII c)); [reflexivity|].
  destruct (asciiSpace c); [|reflexivity].
  apply sublist_cons, IH.
Qed.

Lemma sublist_rev (l k : list ascii) :
  l `sublist_of` k -> rev l `sublist_of` rev k.
Proof.
  induction 1 as [|x l1 l2 _ IH|x l1 l2 _ IH]; simpl.
  - constructor.
  - apply sublist_app; [exact IH | reflexivity].
  - rewrite <- (app_nil_r (rev l1)). apply sublist_app; [exact IH | apply sublist_nil_l].
Qed.

Lemma sublist_rev_l (l k : list ascii) :
  l `sublist_of` rev k -> rev l `sublist_of` k.
Proof.
  intros Hs. rewrite <- (rev_involutive k). apply sublist_rev. exact Hs.
Qed.

(** Trimming only removes bytes. *)
Lemma TrimSpace_sublist (s : list ascii) : TrimSpace s `sublist_of` s.
Proof.
  unfold TrimSpace.
  pose proof (skip_ascii_space_sublist s) as H1.
  destruct (skip_ascii_space s) as [s1 wide]; simpl in H1.
  destruct wide.
  - etransitivity; [|exact H1]. unfold TrimFunc, TrimRightFunc, TrimLeftFunc.
    etransitivity; [apply trimRight_go_sublist | apply trimLeft_go_sublist].
  - pose proof (skip_ascii_space_sublist (rev s1)) as H2.
    destruct (skip_ascii_space (rev s1)) as [r2 wide2]; simpl in H2.
    apply sublist_rev_l in H2.
    etransitivity; [|exact H1]. etransitivity; [|exact H2].
    destruct wide2; [apply trimRight_go_sublist | reflexivity].
Qed.

Lemma ReplaceAll_NUL_free (s : list ascii) :
  ~ In NUL (ReplaceAll_byte NUL [] s).
Proof.
  unfold ReplaceAll_byte. rewrite in_flat_map. intros [c [_ Hc]].
  destruct (Ascii.eqb c NUL) eqn:E; simpl in Hc; [contradiction|].
  destruct Hc as [Hc|[]]. subst c. rewrite Ascii.eqb_refl in E. discriminate.
Qed.

(** X2: what [SanitizeString] does achieve: its result holds no NUL byte and
    is at most 1000 bytes long. *)
Lemma SanitizeString_no_NUL_and_capped (input : string) :
  ~ In NUL (bytes (SanitizeString input))
  /\ (len (SanitizeString input) <= 1000)%nat.
Proof.
  unfold SanitizeString, strings_TrimSpace, slice_to.
  rewrite !bytes_of_bytes.
  set (clean := ReplaceAll_byte NUL [] (bytes input)).
  assert (Hclean : ~ In NUL (TrimSpace clean)).
  { intros Hin. apply (ReplaceAll_NUL_free (bytes input)).
    apply list_elem_of_In. eapply elem_of_sublist; [|apply TrimSpace_sublist].
    apply list_elem_of_In. exact Hin. }
  destruct (1000 <? len (of_bytes (TrimSpace clean)))%nat eqn:Hlen.
  - rewrite bytes_of_bytes, len_of_bytes. split.
    + intros Hin. apply Hclean. apply list_elem_of_In.
      eapply elem_of_sublist; [|apply sublist_take]. apply list_elem_of_In. exact Hin.
    + rewrite length_take. lia.
  - rewrite bytes_of_bytes. split; [exact Hclean|].
    apply Nat.ltb_ge in Hlen. exact Hlen.
Qed.

(** The cut comes after the trimming, so the result of a long input may
    end in white space again: 999 letters, a space and a letter give 999
    letters and the space. *)
Lemma SanitizeString_cut_can_end_in_space :
  let input := of_bytes (List.repeat "a"%char 999 ++ bytes " b") in
  len (SanitizeString input) = 1000%nat
  /\ List.last (bytes (SanitizeString input)) "a"%char = " "%char.
Proof. split; vm_compute; reflexivity. Qed.

End Sanitize.

(** C4: sanitization is said to strip null and control characters, so that
    no control code remains in its result. On the three bytes a, 0x01, b
    the function returns its input unchanged, control code included: only
    the NUL byte is removed (and white space trimmed, and the length
    capped), although the comment in the source announces the removal of
    control characters as well. *)
Theorem SanitizeString_keeps_control_code :
  SanitizeString ("a" +:+ String "001"%char "b") = "a" +:+ String "001"%char "b"
  /\ existsb is_control (bytes (SanitizeString ("a" +:+ String "001"%char "b"))) = true.
Proof. split; reflexivity. Qed.

(** ** Running programs *)

Lemma run_bind {A B : Type} (W : World) (m : Prog A) (k : A -> Prog B) (s : wstate W) :
  run W (m ≫= k) s =
  let '(a, s1, t1) := run W m s in
  let '(b, s2, t2) := run W (k a) s1 in
  (b, s2, t1 ++ t2).
Proof.
  revert s. induction m as [a|X c k' IH]; intros s.
  - cbn. destruct (run W (k a) s) as [[b s2] t2]. reflexivity.
  - cbn. destruct (wstep W X c s) as [x s1].
    specialize (IH x s1). cbn in IH. unfold mbind, Prog_bind in IH. rewrite IH.
    destruct (run W (k' x) s1) as [[a s2] t1].
    destruct (run W (k a) s2) as [[b s3] t2]. reflexivity.
Qed.

Lemma creation_calls_app (t1 t2 : list Event) :
  creation_calls (t1 ++ t2) = creation_calls t1 ++ creation_calls t2.
Proof. apply List.filter_app. Qed.

(** One step of symbolic execution: name the answer of the next call, or
    split on the test the program makes next. *)
Ltac exec_step :=
  match goal with
  | |- context [wstep ?W ?X ?c ?s] =>
    let x := fresh "x" in
    let s' := fresh "s" in
    let E := fresh "E" in
    destruct (wstep W X c s) as [x s'] eqn:E
  | |- context [run _ (match ?r with Ok _ => _ | Err _ => _ end) _] => destruct r eqn:?
  | |- context [run _ (bind (match ?r with Ok _ => _ | Err _ => _ end) _) _] => destruct r eqn:?
  | |- context [run _ (match ?r with Some _ => _ | None => _ end) _] => destruct r eqn:?
  | |- context [run _ (bind (match ?r with Some _ => _ | None => _ end) _) _] => destruct r eqn:?
  | |- context [run _ (match ?d with left _ => _ | right _ => _ end) _] => destruct d
  | |- context [run _ (bind (match ?d with left _ => _ | right _ => _ end) _) _] => destruct d
  | |- context [run _ (if ?b then _ else _) _] => destruct b eqn:?
  | |- context [run _ (bind (if ?b then _ else _) _) _] => destruct b eqn:?
  end.

Ltac exec :=
  unfold mbind, mret, Prog_bind, Prog_ret;
  repeat (cbn [run bind call fst snd]; try exec_step).

Section Handler.
Context `{GoLib}.

(** Authentication talks to the account service only. *)
Lemma AuthenticateUser_trace (W : World) (s : wstate W) (headers : gmap string string) :
  let t := trace_of W (AuthenticateUser headers) s in
  creation_calls t = [] /\ created_teams t = [] /\ document_outcomes t = []
  /\ deleted_teams t = [] /\ http_requests t = [] /\ logs t = [].
Proof.
  unfold trace_of, AuthenticateUser. exec; repeat split; reflexivity.
Qed.

(** A request that reaches validation with a name that fails one of the
    three checks is answered with a validation error on the field
    "name", and nothing was created. *)
Lemma invalid_name_rejected (W : World) (s : wstate W) (req : AppwriteFunctionRequest)
      (sessionInfo : SessionInfo) (createReq : WorkspaceCreateRequest) :
  reaches_validation W s req sessionInfo createReq ->
  valid_name (SanitizeString (Req_Name createReq)) = false ->
  (exists message : string,
      result_of W (handleRequest req) s
      = respondError 400 "VALIDATION_ERROR" message "name")
  /\ creation_calls (trace_of W (handleRequest req) s) = [].
Proof.
  intros (Htrig & Hauth & Hbody) Hname.
  pose proof (AuthenticateUser_trace W s (Headers req)) as (Hcalls & _).
  unfold result_of, trace_of, handleRequest in *.
  rewrite Htrig, run_bind.
  destruct (run W (AuthenticateUser (Headers req)) s) as [[auth s1] t1].
  simpl in Hauth, Hcalls. subst auth. rewrite Hbody.
  unfold valid_name in Hname.
  destruct (decide (SanitizeString (Req_Name createReq) = "")) as [Hempty|Hfull].
  - cbn. rewrite app_nil_r. eauto.
  - rewrite bool_decide_eq_false_2 in Hname by exact Hfull.
    destruct ((len (SanitizeString (Req_Name createReq)) <? 3)%nat
              || (50 <? len (SanitizeString (Req_Name createReq)))%nat).
    + cbn. rewrite app_nil_r. eauto.
    + simpl in Hname. rewrite Hname. cbn. rewrite app_nil_r. eauto.
Qed.

(** C5: a request that reaches validation with a sanitized name shorter
    than 3 or longer than 50 bytes is answered with VALIDATION_ERROR on
    the field "name", and the invocation makes no team-creation and no
    document-creation call. *)
Theorem name_length_rejected (W : World) (s : wstate W) (req : AppwriteFunctionRequest)
        (sessionInfo : SessionInfo) (createReq : WorkspaceCreateRequest) :
  reaches_validation W s req sessionInfo createReq ->
  (len (SanitizeString (Req_Name createReq)) < 3
   \/ 50 < len (SanitizeString (Req_Name createReq)))%nat ->
  (exists message : string,
      result_of W (handleRequest req) s
      = respondError 400 "VALIDATION_ERROR" message "name")
  /\ creation_calls (trace_of W (handleRequest req) s) = [].
Proof.
  intros Hreach Hlen. apply (invalid_name_rejected W s req sessionInfo createReq Hreach).
  unfold valid_name.
  assert (Hb : ((len (SanitizeString (Req_Name createReq)) <? 3)%nat
                || (50 <? len (SanitizeString (Req_Name createReq)))%nat) = true).
  { apply orb_true_iff. destruct Hlen; [left | right]; apply Nat.ltb_lt; assumption. }
  rewrite Hb. simpl. rewrite andb_false_r. reflexivity.
Qed.

(** Whatever the trigger check and authentication say, a body whose name
    fails validation never leads to a creation call. *)
Lemma invalid_name_creates_nothing (W : World) (s : wstate W)
      (req : AppwriteFunctionRequest) (createReq : WorkspaceCreateRequest) :
  ValidateInput (Body req) = Ok createReq ->
  valid_name (SanitizeString (Req_Name createReq)) = false ->
  creation_calls (trace_of W (handleRequest req) s) = [].
Proof.
  intros Hbody Hname. unfold trace_of, handleRequest.
  destruct (VerifyTrigger (Headers req)); [reflexivity|].
  rewrite run_bind.
  pose proof (AuthenticateUser_trace W s (Headers req)) as (Hcalls & _).
  unfold trace_of in Hcalls.
  destruct (run W (AuthenticateUser (Headers req)) s) as [[auth s1] t1].
  simpl in Hcalls.
  destruct auth as [sessionInfo|err]; [|cbn; now rewrite app_nil_r].
  rewrite Hbody. unfold valid_name in Hname.
  destruct (decide (SanitizeString (Req_Name createReq) = "")) as [Hempty|Hfull].
  - cbn. now rewrite app_nil_r.
  - rewrite bool_decide_eq_false_2 in Hname by exact Hfull.
    destruct ((len (SanitizeString (Req_Name createReq)) <? 3)%nat
              || (50 <? len (SanitizeString (Req_Name createReq)))%nat).
    + cbn. now rewrite app_nil_r.
    + simpl in Hname. rewrite Hname. cbn. now rewrite app_nil_r.
Qed.

End Handler.

Ltac open_handler :=
  unfold result_of, trace_of, handleRequest, AuthenticateUser, sendWelcomeWebhook,
    initializeWorkspaceCollection in *.

Section Provisioning.
Context `{GoLib}.

(** C1: when team creation succeeds and document creation then fails,
    the handler's last call is a delete of exactly the team it was
    given, no other delete is issued, no document was stored by this
    invocation, and the answer is the 500 WORKSPACE_CREATION_FAILED
    error. *)
Theorem team_deleted_when_document_fails
        (W : World) (s : wstate W) (req : AppwriteFunctionRequest)
        (team : Team) (err : string) :
  let t := trace_of W (handleRequest req) s in
  In team (created_teams t) ->
  In (Err err) (document_outcomes t) ->
  result_of W (handleRequest req) s
  = respondError 500 "WORKSPACE_CREATION_FAILED"
                 "Failed to create workspace document" ""
  /\ deleted_teams t = [Team_Id team]
  /\ document_outcomes t = [Err err]
  /\ exists (before : list Event) (c : Client) (r : res unit),
      t = before ++ [Ev (TeamsDelete c (Team_Id team)) r]
      /\ deleted_teams before = []
      /\ created_teams before = [team]
      /\ document_outcomes before = [Err err].
Proof.
  intros t. subst t. open_handler. exec; simpl; intros Hteam Hdoc;
    try contradiction;
    repeat match goal with
           | Hx : _ \/ False |- _ => destruct Hx as [Hx|[]]
           end;
    try discriminate.
  simplify_eq. do 3 (split; [reflexivity|]).
  match goal with
  | |- context [Ev (TeamsDelete ?c _) ?r] =>
    eexists [_; _; _; _; _; _; _; _], c, r
  end.
  repeat split.
Qed.


(** C7: when a request whose plan field is the empty string is
    provisioned successfully (status 200), the workspace in the answer
    has plan "free", status "active" and a tenantId equal to its
    teamId. *)
Theorem empty_plan_defaults_to_free
        (W : World) (s : wstate W) (req : AppwriteFunctionRequest)
        (createReq : WorkspaceCreateRequest) :
  ValidateInput (Body req) = Ok createReq ->
  Req_Plan createReq = "" ->
  StatusCode (result_of W (handleRequest req) s) = 200 ->
  exists workspace : Workspace,
    result_of W (handleRequest req) s = success_response workspace
    /\ Workspace_Plan workspace = "free"
    /\ Workspace_Status workspace = "active"
    /\ Workspace_TenantID workspace = Workspace_TeamID workspace.
Proof.
  intros Hbody Hplan. open_handler. rewrite Hbody, Hplan.
  exec; simpl; intros Hstatus; try discriminate Hstatus.
  all: eexists; split; [reflexivity|]; simpl; repeat split.
Qed.

(** C8: once team creation and document creation have both succeeded,
    the answer is the success response with status 200 whatever becomes
    of the welcome notification; a missing webhook URL or key shows only
    as a warning line in the log. *)
Theorem notification_failure_only_logged
        (W : World) (s : wstate W) (req : AppwriteFunctionRequest)
        (team : Team) (doc : Document) :
  let t := trace_of W (handleRequest req) s in
  In team (created_teams t) ->
  In (Ok doc) (document_outcomes t) ->
  StatusCode (result_of W (handleRequest req) s) = 200
  /\ (exists workspace : Workspace,
      result_of W (handleRequest req) s = success_response workspace
      /\ Workspace_ID workspace = Document_Id doc
      /\ Workspace_TeamID workspace = Team_Id team)
  /\ (index (Env req) "WEBHOOK_URL" = "" ->
      logs t = ["Warning: Failed to send welcome webhook: webhook URL not configured"])
  /\ (index (Env req) "WEBHOOK_URL" <> "" ->
      index (Env req) "WEBHOOK_API_KEY" = "" ->
      logs t = ["Warning: Failed to send welcome webhook: webhook API key not configured"]).
Proof.
  intros t. subst t. open_handler.
  exec; simpl; intros Hteam Hdoc; try contradiction;
    repeat match goal with
           | Hx : _ \/ False |- _ => destruct Hx as [Hx|[]]
           end;
    try discriminate; simplify_eq.
  all: split; [reflexivity|].
  all: split; [eexists; split; [reflexivity|]; split; reflexivity|].
  all: split; intros; try contradiction; try reflexivity.
Qed.


(** The handler never makes an outbound HTTP request. *)
Lemma handleRequest_sends_nothing
      (W : World) (s : wstate W) (req : AppwriteFunctionRequest) :
  http_requests (trace_of W (handleRequest req) s) = [].
Proof. open_handler. exec; reflexivity. Qed.

(** X19: every document-creation call takes its database and collection
    identifiers from the keys that the handler names, and every
    team-creation call uses a client configured from the three
    APPWRITE_ keys of the env map. *)
Lemma handleRequest_configuration
      (W : World) (s : wstate W) (req : AppwriteFunctionRequest) :
  let t := trace_of W (handleRequest req) s in
  Forall (fun target =>
            target = (index (Env req) "6952f51d00043d5bb1d9",
                      index (Env req) "workspaces"))
         (document_targets t)
  /\ Forall (fun c =>
               Endpoint c = index (Env req) "APPWRITE_ENDPOINT"
               /\ ClientHeaders c !! "X-Appwrite-Project"
                  = Some (index (Env req) "APPWRITE_PROJECT_ID")
               /\ ClientHeaders c !! "X-Appwrite-Key"
                  = Some (index (Env req) "APPWRITE_API_KEY"))
            (team_clients t).
Proof.
  intros t. subst t. open_handler.
  exec; simpl; split; repeat constructor; by simplify_map_eq.
Qed.


(** X21: when the payload decodes, the one thing printed is the marshalled
    answer of the handler. *)
Lemma decoded_payload_prints_response
      (W : World) (s : wstate W) (stdin : string) (req : AppwriteFunctionRequest) :
  json_Decode_AppwriteFunctionRequest stdin = Ok req ->
  stdout (trace_of W (main stdin) s)
  = [json_Marshal_AppwriteFunctionResponse (result_of W (handleRequest req) s)].
Proof.
  intros Hdecode. unfold trace_of, result_of, main. rewrite Hdecode.
  rewrite run_bind.
  assert (Hquiet : stdout (snd (run W (handleRequest req) s)) = []).
  { open_handler. exec; reflexivity. }
  destruct (run W (handleRequest req) s) as [[response s1] t1].
  simpl in *. destruct (wstep W () (FmtPrint _) s1) as [[] s2].
  unfold stdout in *. cbn [snd]. rewrite omap_app, Hquiet. reflexivity.
Qed.

End Provisioning.

(** ** The name's character class *)

(** The class the handler tests is the class of the specification plus
    the four white-space characters tab, line feed, form feed and carriage
    return, which the Perl class [\s] brings in. *)
Lemma name_class_vs_spec (c : ascii) :
  regexp.name_class c
  = spec_name_class c
    || (utf8.byte_val c =? 9) || (utf8.byte_val c =? 10)
    || (utf8.byte_val c =? 12) || (utf8.byte_val c =? 13).
Proof. destruct c as [[] [] [] [] [] [] [] []]; reflexivity. Qed.


Section NameClass.
Context `{GoLib}.


(** X20: neither the answer nor the calls to the platform depend on the two
    webhook entries of the env map. *)
Lemma webhook_configuration_does_not_change_result
      (W : World) (s : wstate W) (req : AppwriteFunctionRequest)
      (env' : gmap string string) :
  (forall k : string,
      k <> "WEBHOOK_URL" -> k <> "WEBHOOK_API_KEY" -> env' !! k = Env req !! k) ->
  result_of W (handleRequest {| Headers := Headers req; Body := Body req; Env := env' |}) s
  = result_of W (handleRequest req) s.
Proof.
  intros Hagree. open_handler. cbn [Headers Body Env].
  assert (Hindex : forall k : string,
             k <> "WEBHOOK_URL" -> k <> "WEBHOOK_API_KEY" ->
             index env' k = index (Env req) k).
  { intros k H1 H2. unfold index. now rewrite Hagree. }
  rewrite !(Hindex "APPWRITE_ENDPOINT"), !(Hindex "APPWRITE_PROJECT_ID"),
    !(Hindex "APPWRITE_API_KEY"), !(Hindex "6952f51d00043d5bb1d9"),
    !(Hindex "workspaces") by discriminate.
  exec; reflexivity.
Qed.

(** X27: what the webhook service of [shared/services] sends, when it sends:
    one POST at most, with a bearer Authorization header and the
    workspace.created payload. The handler does not call it. *)
Lemma services_SendWelcomeWebhook_request
      (W : World) (s : wstate W) (workspaceName userEmail teamID : string) :
  let t := trace_of W (services_SendWelcomeWebhook workspaceName userEmail teamID) s in
  (length (http_requests t) <= 1)%nat
  /\ Forall (fun r =>
              Http_Method r = "POST"
              /\ (exists apiKey : string,
                     apiKey <> ""
                     /\ Http_Header r !! "Authorization" = Some ("Bearer " +:+ apiKey))
              /\ exists now : string,
                  Http_Body r
                  = json_Marshal_WebhookPayload
                      {| Payload_Event := "workspace.created";
                         Payload_Timestamp := now;
                         Payload_Data :=
                           <["teamId" := teamID]>
                           (<["userEmail" := userEmail]>
                           (<["workspaceName" := workspaceName]> ∅)) |})
            (http_requests t).
Proof.
  intros t. subst t. unfold trace_of, services_SendWelcomeWebhook.
  exec; simpl; (split; [lia|]); repeat constructor; eauto.
  all: match goal with
       | Hb : bool_decide _ || bool_decide (?k = "") = false |- _ =>
         exists k; apply orb_false_iff in Hb; destruct Hb as [_ Hb];
         apply bool_decide_eq_false in Hb; split; [exact Hb | by simplify_map_eq]
       end.
Qed.

End NameClass.

(** ** The invariant of the data model, on the reference platform *)

Section Store.
Context `{GoLib}.
Variable succeeds : nat -> bool.

Ltac platform_step :=
  match goal with
  | E : wstep (Platform.world succeeds) _ _ _ = _ |- _ =>
    cbn [wstep Platform.world Platform.step] in E;
    try match type of E with
        | context [succeeds ?n] => destruct (succeeds n)
        end;
    simplify_eq
  end.

(** On the reference platform the handler keeps the invariant of the
    data model: if every stored document names an existing team before
    the invocation, so it is afterwards, on every path, the one where the
    document creation fails and the team is deleted included. *)
Lemma handleRequest_keeps_documents_referential
      (st : Platform.Store) (req : AppwriteFunctionRequest) :
  Platform.referential st ->
  Platform.referential (state_of (Platform.world succeeds) (handleRequest req) st).
Proof.
  intros Hinv. unfold state_of. open_handler.
  exec; cbn [fst snd]; repeat platform_step; try exact Hinv.
  all: unfold Platform.referential in *;
    cbn [Platform.teams Platform.documents Platform.tick Team_Id] in *.
  all: match type of Hinv with
       | context [Platform.documents ?s] =>
         pose proof (is_fresh (Platform.teams s)) as Hfresh
       end.
  all: intros d Hd;
    try (destruct Hd as [<-|Hd];
         [eexists; split; [unfold workspaceDoc; by simplify_map_eq | set_solver]|]).
  all: destruct (Hinv d Hd) as (teamId & Hlookup & Hteam);
    exists teamId; split; [exact Hlookup | set_solver].
Qed.

End Store.

(** ** The handler on the sample platform *)

#[local] Existing Instance Sample.lib.

(** C2: the deployment guide stores the database and collection
    identifiers under APPWRITE_DATABASE_ID and
    APPWRITE_WORKSPACES_COLLECTION_ID, next to the endpoint, project and
    key entries. With exactly that env map the document-creation call is
    made with two empty identifiers: the handler indexes the map with
    what look like the identifiers' values. *)
Theorem document_target_ignores_configured_identifiers :
  let req := Sample.request Sample.acme Sample.env in
  Env req !! "APPWRITE_DATABASE_ID" = Some "main-db"
  /\ Env req !! "APPWRITE_WORKSPACES_COLLECTION_ID" = Some "workspaces-collection"
  /\ document_targets (trace_of Sample.platform (handleRequest req) Sample.all_ok)
     = [("", "")].
Proof. repeat split; vm_compute; reflexivity. Qed.



(** ** The theorems at the sample requests *)

Lemma team_deleted_when_document_fails_witness :
  let req := Sample.request Sample.acme Sample.env in
  let t := trace_of Sample.platform (handleRequest req) Sample.document_fails in
  In {| Team_Id := "team-1" |} (created_teams t)
  /\ In (Err "collection_not_found") (document_outcomes t)
  /\ deleted_teams t = ["team-1"].
Proof.
  intros req t.
  assert (Hteam : In {| Team_Id := "team-1" |} (created_teams t)).
  { vm_compute. left. reflexivity. }
  assert (Hdoc : In (Err "collection_not_found") (document_outcomes t)).
  { vm_compute. left. reflexivity. }
  split; [exact Hteam|]. split; [exact Hdoc|].
  exact (proj1 (proj2 (team_deleted_when_document_fails
                         Sample.platform Sample.document_fails req _ _ Hteam Hdoc))).
Defined.

Lemma name_length_rejected_witness :
  let req := Sample.request Sample.short Sample.env in
  reaches_validation Sample.platform Sample.all_ok req Sample.session Sample.short
  /\ (len (SanitizeString (Req_Name Sample.short)) < 3)%nat
  /\ creation_calls (trace_of Sample.platform (handleRequest req) Sample.all_ok) = [].
Proof.
  intros req.
  assert (Hreach : reaches_validation Sample.platform Sample.all_ok req
                                      Sample.session Sample.short).
  { repeat split; vm_compute; reflexivity. }
  assert (Hlen : (len (SanitizeString (Req_Name Sample.short)) < 3)%nat).
  { vm_compute. lia. }
  split; [exact Hreach|]. split; [exact Hlen|].
  exact (proj2 (name_length_rejected Sample.platform Sample.all_ok req
                  Sample.session Sample.short Hreach (or_introl Hlen))).
Defined.


Lemma empty_plan_defaults_to_free_witness :
  let req := Sample.request Sample.acme Sample.env in
  ValidateInput (Body req) = Ok Sample.acme
  /\ Req_Plan Sample.acme = ""
  /\ StatusCode (result_of Sample.platform (handleRequest req) Sample.all_ok) = 200
  /\ exists workspace : Workspace,
      result_of Sample.platform (handleRequest req) Sample.all_ok
      = success_response workspace
      /\ Workspace_Plan workspace = "free"
      /\ Workspace_Status workspace = "active"
      /\ Workspace_TenantID workspace = Workspace_TeamID workspace.
Proof.
  intros req.
  assert (Hbody : ValidateInput (Body req) = Ok Sample.acme).
  { vm_compute. reflexivity. }
  assert (Hstatus : StatusCode (result_of Sample.platform (handleRequest req)
                                          Sample.all_ok) = 200).
  { vm_compute. reflexivity. }
  split; [exact Hbody|]. split; [reflexivity|]. split; [exact Hstatus|].
  exact (empty_plan_defaults_to_free Sample.platform Sample.all_ok req Sample.acme
           Hbody eq_refl Hstatus).
Defined.

Lemma notification_failure_only_logged_witness :
  let req := Sample.request Sample.acme Sample.env in
  let t := trace_of Sample.platform (handleRequest req) Sample.all_ok in
  In {| Team_Id := "team-1" |} (created_teams t)
  /\ In (Ok {| Document_Id := "doc-1" |}) (document_outcomes t)
  /\ index (Env req) "WEBHOOK_URL" = ""
  /\ logs t = ["Warning: Failed to send welcome webhook: webhook URL not configured"].
Proof.
  intros req t.
  assert (Hteam : In {| Team_Id := "team-1" |} (created_teams t)).
  { vm_compute. left. reflexivity. }
  assert (Hdoc : In (Ok {| Document_Id := "doc-1" |}) (document_outcomes t)).
  { vm_compute. left. reflexivity. }
  assert (Hurl : index (Env req) "WEBHOOK_URL" = "").
  { vm_compute. reflexivity. }
  split; [exact Hteam|]. split; [exact Hdoc|]. split; [exact Hurl|].
  exact (proj1 (proj2 (proj2 (notification_failure_only_logged
                                Sample.platform Sample.all_ok req _ _ Hteam Hdoc))) Hurl).
Defined.



(** ** Trimming, byte by byte *)

Section Trimming.
Import strings utf8.

Lemma asciiSpace_isASCII (c : ascii) : asciiSpace c = true -> isASCII c = true.
Proof. destruct c as [[] [] [] [] [] [] [] []]; intros Hc; try reflexivity; discriminate Hc. Qed.

Lemma skip_ascii_space_all (l : list ascii) :
  forallb asciiSpace l = true -> skip_ascii_space l = ([], false).
Proof.
  induction l as [|c t IH]; simpl; [reflexivity|].
  intros Hall. apply andb_true_iff in Hall as [Hc Ht].
  rewrite (asciiSpace_isASCII c Hc), Hc. simpl. exact (IH Ht).
Qed.

Lemma TrimSpace_blank (l : list ascii) :
  forallb asciiSpace l = true -> TrimSpace l = [].
Proof.
  intros Hall. unfold TrimSpace. rewrite (skip_ascii_space_all l Hall). reflexivity.
Qed.

Lemma skip_ascii_space_stop (c : ascii) (t : list ascii) :
  ascii_nonspace c = true -> skip_ascii_space (c :: t) = (c :: t, false).
Proof.
  unfold ascii_nonspace. intros Hc. apply andb_true_iff in Hc as [Ha Hs].
  apply negb_true_iff in Hs. simpl. rewrite Ha, Hs. reflexivity.
Qed.

(** A string that starts and ends with an ASCII byte other than white
    space is left alone. *)
Lemma TrimSpace_unchanged (l : list ascii) (a z : ascii) :
  hd_error l = Some a -> hd_error (rev l) = Some z ->
  ascii_nonspace a = true -> ascii_nonspace z = true ->
  TrimSpace l = l.
Proof.
  intros Hhd Hlast Ha Hz. unfold TrimSpace.
  destruct l as [|c t]; [discriminate|]. injection Hhd as ->.
  rewrite (skip_ascii_space_stop a t Ha).
  destruct (rev (a :: t)) as [|c r] eqn:Hrev; [discriminate|]. injection Hlast as ->.
  rewrite (skip_ascii_space_stop z r Hz). rewrite <- Hrev. apply rev_involutive.
Qed.

Lemma ReplaceAll_byte_absent (old : ascii) (new l : list ascii) :
  ~ In old l -> ReplaceAll_byte old new l = l.
Proof.
  unfold ReplaceAll_byte. induction l as [|c t IH]; simpl; [reflexivity|].
  intros Hnot. destruct (Ascii.eqb_spec c old) as [Heq|Hne].
  - exfalso. apply Hnot. left. exact Heq.
  - simpl. f_equal. apply IH. intros Hin. apply Hnot. right. exact Hin.
Qed.

Lemma ReplaceAll_byte_sublist (old : ascii) (l : list ascii) :
  ReplaceAll_byte old [] l `sublist_of` l.
Proof.
  unfold ReplaceAll_byte. induction l as [|c t IH]; simpl; [constructor|].
  destruct (Ascii.eqb c old); simpl.
  - apply sublist_cons, IH.
  - apply sublist_skip, IH.
Qed.

(** Decoding a rune of a non-empty string consumes at least one byte. *)
Lemma DecodeRune_size (c : ascii) (t : list ascii) :
  (1 <= snd (DecodeRune (c :: t)))%nat.
Proof.
  unfold DecodeRune.
  repeat match goal with
         | |- context [if ?b then _ else _] => destruct b
         | |- context [match ?x with _ => _ end] => destruct x
         end; simpl; lia.
Qed.

Lemma DecodeRune_ascii (c : ascii) (t : list ascii) :
  isASCII c = true -> DecodeRune (c :: t) = (byte_val c, 1%nat).
Proof. unfold isASCII, DecodeRune. intros ->. reflexivity. Qed.

Lemma IsSpace_asciiSpace (c : ascii) :
  asciiSpace c = true -> unicode.IsSpace (byte_val c) = true.
Proof. destruct c as [[] [] [] [] [] [] [] []]; intros Hc; try reflexivity; discriminate Hc. Qed.

(** After [TrimLeftFunc unicode.IsSpace] the first byte is no ASCII white
    space. *)
Lemma trimLeft_go_head (fuel : nat) (s : list ascii) :
  (length s <= fuel)%nat ->
  match trimLeft_go fuel unicode.IsSpace s with
  | [] => True
  | c :: _ => asciiSpace c = false
  end.
Proof.
  revert s. induction fuel as [|fuel IH]; intros s Hlen.
  - destruct s; [exact I | simpl in Hlen; lia].
  - destruct s as [|c t]; [exact I|].
    cbn [trimLeft_go].
    pose proof (DecodeRune_size c t) as Hsize.
    destruct (DecodeRune (c :: t)) as [r size] eqn:Hdec. simpl in Hsize.
    destruct (unicode.IsSpace r) eqn:Hsp.
    + apply IH. rewrite length_drop. simpl in *. lia.
    + destruct (asciiSpace c) eqn:Hc; [|reflexivity].
      rewrite (DecodeRune_ascii c t (asciiSpace_isASCII c Hc)) in Hdec.
      injection Hdec as <- _. rewrite (IsSpace_asciiSpace c Hc) in Hsp. discriminate.
Qed.

Lemma trimRight_go_prefix (f : Z -> bool) (fuel : nat) (s : list ascii) :
  exists k : nat, trimRight_go fuel f s = take k s.
Proof.
  revert s. induction fuel as [|fuel IH]; intros s.
  - exists (length s). simpl. symmetry. apply firstn_all.
  - destruct s as [|c t]; [exists 0%nat; reflexivity|].
    cbn [trimRight_go]. destruct (DecodeLastRune (c :: t)) as [r size].
    destruct (f r).
    + destruct (IH (take (length (c :: t) - size) (c :: t))) as [k Hk].
      rewrite Hk. rewrite take_take. eexists. reflexivity.
    + exists (length (c :: t)). symmetry. apply firstn_all.
Qed.

Lemma take_head (k : nat) (s : list ascii) :
  match take k s with
  | [] => True
  | c :: _ => hd_error s = Some c
  end.
Proof. destruct k, s; simpl; auto. Qed.

Lemma skip_ascii_space_suffix (s : list ascii) :
  exists p : list ascii, s = p ++ fst (skip_ascii_space s).
Proof.
  induction s as [|c t [p Hp]]; simpl; [exists []; reflexivity|].
  destruct (negb (isASCII c)); [exists []; reflexivity|].
  destruct (asciiSpace c); [|exists []; reflexivity].
  exists (c :: p). simpl. f_equal. exact Hp.
Qed.

Lemma skip_ascii_space_head (s : list ascii) :
  match fst (skip_ascii_space s) with
  | [] => True
  | c :: _ => asciiSpace c = false
  end.
Proof.
  induction s as [|c t IH]; simpl; [exact I|].
  destruct (isASCII c) eqn:Ha; simpl.
  - destruct (asciiSpace c) eqn:Hc; [exact IH | exact Hc].
  - destruct (asciiSpace c) eqn:Hc; [|reflexivity].
    rewrite (asciiSpace_isASCII c Hc) in Ha. discriminate.
Qed.

(** The result of [TrimSpace] does not start with ASCII white space. *)
Lemma TrimSpace_head (s : list ascii) :
  match TrimSpace s with
  | [] => True
  | c :: _ => asciiSpace c = false
  end.
Proof.
  unfold TrimSpace.
  pose proof (skip_ascii_space_head s) as H1.
  destruct (skip_ascii_space s) as [s1 wide]. simpl in H1. destruct wide.
  - unfold TrimFunc, TrimRightFunc, TrimLeftFunc.
    pose proof (trimLeft_go_head (length s1) s1 (le_n _)) as H2.
    destruct (trimRight_go_prefix unicode.IsSpace
                (length (trimLeft_go (length s1) unicode.IsSpace s1))
                (trimLeft_go (length s1) unicode.IsSpace s1)) as [k ->].
    pose proof (take_head k (trimLeft_go (length s1) unicode.IsSpace s1)) as H3.
    destruct (take k _) as [|c r]; [exact I|].
    destruct (trimLeft_go (length s1) unicode.IsSpace s1); [discriminate|].
    injection H3 as ->. exact H2.
  - assert (Hpre : forall x : list ascii,
               (exists y, s1 = x ++ y) ->
               match x with [] => True | c :: _ => asciiSpace c = false end).
    { intros x [y ->]. destruct x; [exact I|]. exact H1. }
    destruct (skip_ascii_space (rev s1)) as [r2 wide2] eqn:E2.
    assert (Hr2 : exists y, s1 = rev r2 ++ y).
    { pose proof (skip_ascii_space_suffix (rev s1)) as [p Hp].
      rewrite E2 in Hp. simpl in Hp. exists (rev p).
      rewrite <- rev_app_distr, <- Hp. symmetry. apply rev_involutive. }
    destruct wide2.
    + unfold TrimRightFunc.
      destruct (trimRight_go_prefix unicode.IsSpace (length (rev r2)) (rev r2)) as [k ->].
      apply Hpre. destruct Hr2 as [y Hy]. exists (drop k (rev r2) ++ y).
      rewrite app_assoc, take_drop. exact Hy.
    + apply Hpre. exact Hr2.
Qed.

End Trimming.

Section TrimmingRight.
Import strings utf8.

Lemma scan_start_le (s : list ascii) (lim steps : nat) (z : Z) :
  scan_start s lim steps z <= z.
Proof.
  revert z. induction steps as [|steps IH]; intros z; simpl; [lia|].
  destruct (z <? Z.of_nat lim); [lia|].
  destruct (nth_error s (Z.to_nat z)); [|lia].
  destruct (RuneStart a); [lia|]. specialize (IH (z - 1)). lia.
Qed.

Lemma DecodeRune_nil_size (s : list ascii) :
  snd (DecodeRune s) = 0%nat -> s = [].
Proof.
  destruct s as [|c t]; [reflexivity|].
  pose proof (DecodeRune_size c t). lia.
Qed.

(** Decoding the last rune of a non-empty string consumes at least one
    byte. *)
Lemma DecodeLastRune_size (p : list ascii) (z : ascii) :
  (1 <= snd (DecodeLastRune (p ++ [z])))%nat.
Proof.
  unfold DecodeLastRune. rewrite length_app. simpl length.
  replace (length p + 1)%nat with (S (length p)) by lia.
  destruct (byte_val (nth (length p) (p ++ [z]) zero) <? RuneSelf); [simpl; lia|].
  set (z0 := scan_start (p ++ [z]) (S (length p) - UTFMax) UTFMax (Z.of_nat (length p) - 1)).
  assert (Hz0 : z0 <= Z.of_nat (length p) - 1) by apply scan_start_le.
  set (start := if z0 <? 0 then 0%nat else Z.to_nat z0).
  assert (Hstart : (start < S (length p))%nat).
  { subst start. destruct (z0 <? 0); lia. }
  destruct (DecodeRune (drop start (p ++ [z]))) as [r size] eqn:Hdec.
  destruct (negb (start + size =? S (length p))%nat) eqn:Hne; [simpl; lia|].
  simpl. apply negb_false_iff, Nat.eqb_eq in Hne.
  destruct size; [|lia].
  assert (Hnil : drop start (p ++ [z]) = []).
  { apply DecodeRune_nil_size. rewrite Hdec. reflexivity. }
  apply (f_equal (@length ascii)) in Hnil.
  rewrite length_drop, length_app in Hnil. simpl in Hnil. lia.
Qed.

Lemma DecodeLastRune_ascii (p : list ascii) (z : ascii) :
  isASCII z = true -> DecodeLastRune (p ++ [z]) = (byte_val z, 1%nat).
Proof.
  intros Hz. unfold DecodeLastRune. rewrite length_app. simpl length.
  replace (length p + 1)%nat with (S (length p)) by lia.
  rewrite app_nth2 by lia. rewrite Nat.sub_diag. simpl nth.
  unfold isASCII in Hz. rewrite Hz. reflexivity.
Qed.

Lemma trimRight_go_nonempty (f : Z -> bool) (fuel : nat) (s : list ascii) :
  s <> [] ->
  trimRight_go (S fuel) f s
  = let '(r, size) := DecodeLastRune s in
    if f r then trimRight_go fuel f (take (length s - size) s) else s.
Proof. destruct s; [contradiction | reflexivity]. Qed.

(** After [TrimRightFunc unicode.IsSpace] the last byte is no ASCII white
    space. *)
Lemma trimRight_go_last (fuel : nat) (s : list ascii) (c : ascii) :
  (length s <= fuel)%nat ->
  hd_error (rev (trimRight_go fuel unicode.IsSpace s)) = Some c ->
  asciiSpace c = false.
Proof.
  revert s. induction fuel as [|fuel IH]; intros s Hlen.
  - destruct s; [discriminate | simpl in Hlen; lia].
  - destruct s as [|x t] using rev_ind; [discriminate|]. clear IHt.
    rename t into p. rename x into z.
    rewrite trimRight_go_nonempty by (destruct p; discriminate).
    pose proof (DecodeLastRune_size p z) as Hsize.
    destruct (DecodeLastRune (p ++ [z])) as [r size] eqn:Hdec. simpl in Hsize.
    destruct (unicode.IsSpace r) eqn:Hsp.
    + apply IH. rewrite length_take. rewrite length_app in *. simpl in *. lia.
    + rewrite rev_app_distr. simpl. intros Hc. injection Hc as ->.
      destruct (asciiSpace c) eqn:Hc; [|reflexivity].
      rewrite (DecodeLastRune_ascii p c (asciiSpace_isASCII c Hc)) in Hdec.
      injection Hdec as <- _. rewrite (IsSpace_asciiSpace c Hc) in Hsp. discriminate.
Qed.

(** The result of [TrimSpace] does not end with ASCII white space. *)
Lemma TrimSpace_last (s : list ascii) (c : ascii) :
  hd_error (rev (TrimSpace s)) = Some c -> asciiSpace c = false.
Proof.
  unfold TrimSpace.
  destruct (skip_ascii_space s) as [s1 wide]. destruct wide.
  - unfold TrimFunc, TrimRightFunc. apply trimRight_go_last. lia.
  - pose proof (skip_ascii_space_head (rev s1)) as H2.
    destruct (skip_ascii_space (rev s1)) as [r2 wide2]. simpl in H2.
    destruct wide2.
    + unfold TrimRightFunc. apply trimRight_go_last. lia.
    + rewrite rev_involutive. destruct r2; [discriminate|].
      simpl. intros Hc. injection Hc as ->. exact H2.
Qed.

End TrimmingRight.

(** ** More on sanitization *)

(** X1: [SanitizeString] only removes bytes: its result is a subsequence
    of the input, hence never longer than the input. *)
Theorem SanitizeString_only_removes (input : string) :
  bytes (SanitizeString input) `sublist_of` bytes input
  /\ (len (SanitizeString input) <= len input)%nat.
Proof.
  assert (Hsub : bytes (SanitizeString input) `sublist_of` bytes input).
  { unfold SanitizeString, strings_TrimSpace, slice_to.
    rewrite !bytes_of_bytes.
    set (clean := strings.ReplaceAll_byte NUL [] (bytes input)).
    assert (Htrim : strings.TrimSpace clean `sublist_of` bytes input).
    { etransitivity; [apply TrimSpace_sublist | apply ReplaceAll_byte_sublist]. }
    destruct (1000 <? len (of_bytes (strings.TrimSpace clean)))%nat;
      rewrite bytes_of_bytes; [|exact Htrim].
    etransitivity; [apply sublist_take | exact Htrim]. }
  split; [exact Hsub|].
  rewrite <- !len_bytes. apply sublist_length. exact Hsub.
Qed.

(** X3: a string without NUL byte, of at most 1000 bytes, that starts and
    ends with an ASCII byte other than white space, is returned as it
    is. *)
Theorem SanitizeString_unchanged (input : string) (a z : ascii) :
  ~ In NUL (bytes input) ->
  (len input <= 1000)%nat ->
  hd_error (bytes input) = Some a ->
  hd_error (rev (bytes input)) = Some z ->
  ascii_nonspace a = true ->
  ascii_nonspace z = true ->
  SanitizeString input = input.
Proof.
  intros Hnul Hlen Hhd Hlast Ha Hz.
  unfold SanitizeString, strings_TrimSpace.
  rewrite (ReplaceAll_byte_absent NUL [] (bytes input) Hnul), bytes_of_bytes.
  rewrite (TrimSpace_unchanged (bytes input) a z Hhd Hlast Ha Hz), of_bytes_bytes.
  apply Nat.ltb_ge in Hlen. rewrite Hlen. reflexivity.
Qed.

(** X4: the result of [SanitizeString] never starts with an ASCII
    white-space byte (tab, line feed, vertical tab, form feed, carriage
    return, space), cut or not. *)
Theorem SanitizeString_no_leading_space (input : string) (c : ascii) :
  hd_error (bytes (SanitizeString input)) = Some c ->
  strings.asciiSpace c = false.
Proof.
  unfold SanitizeString, strings_TrimSpace, slice_to.
  rewrite !bytes_of_bytes.
  set (clean := strings.ReplaceAll_byte NUL [] (bytes input)).
  pose proof (TrimSpace_head clean) as Hhead.
  destruct (1000 <? len (of_bytes (strings.TrimSpace clean)))%nat;
    rewrite bytes_of_bytes.
  - pose proof (take_head 1000 (strings.TrimSpace clean)) as Htake.
    destruct (take 1000 (strings.TrimSpace clean)) as [|x r]; [discriminate|].
    destruct (strings.TrimSpace clean); [discriminate|].
    injection Htake as ->. simpl. intros Hc. injection Hc as ->. exact Hhead.
  - destruct (strings.TrimSpace clean); [discriminate|].
    simpl. intros Hc. injection Hc as ->. exact Hhead.
Qed.

(** X5: for an input of at most 1000 bytes (nothing is cut), the result
    of [SanitizeString] does not end with an ASCII white-space byte
    either. *)
Theorem SanitizeString_no_trailing_space (input : string) (c : ascii) :
  (len input <= 1000)%nat ->
  hd_error (rev (bytes (SanitizeString input))) = Some c ->
  strings.asciiSpace c = false.
Proof.
  intros Hlen. unfold SanitizeString, strings_TrimSpace.
  rewrite !bytes_of_bytes.
  set (clean := strings.ReplaceAll_byte NUL [] (bytes input)).
  assert (Hshort : (1000 <? len (of_bytes (strings.TrimSpace clean)))%nat = false).
  { apply Nat.ltb_ge. rewrite len_of_bytes, <- len_bytes in *.
    assert (Hsub : strings.TrimSpace clean `sublist_of` bytes input).
    { etransitivity; [apply TrimSpace_sublist | apply ReplaceAll_byte_sublist]. }
    apply sublist_length in Hsub. lia. }
  rewrite Hshort, bytes_of_bytes. apply TrimSpace_last.
Qed.

Section Input.
Context `{GoLib}.

(** X6: a body made of ASCII white space only (the empty body included)
    is refused as empty, and the JSON decoder is not consulted. *)
Theorem ValidateInput_blank_body (body : string) :
  forallb strings.asciiSpace (bytes body) = true ->
  ValidateInput body = Err "request body is empty".
Proof.
  intros Hblank. unfold ValidateInput, strings_TrimSpace.
  rewrite (TrimSpace_blank (bytes body) Hblank). reflexivity.
Qed.

End Input.

(** ** More on the handler *)

Section HandlerGates.
Context `{GoLib}.

(** X7: without the trigger header, or with an empty one, the handler
    answers 401 UNAUTHORIZED at once: no call leaves the process and the
    outside world is left as it was. *)
Theorem missing_trigger_is_unauthorized
        (W : World) (s : wstate W) (req : AppwriteFunctionRequest) :
  Headers req !! "x-appwrite-trigger" = None
  \/ Headers req !! "x-appwrite-trigger" = Some "" ->
  run W (handleRequest req) s
  = (respondError 401 "UNAUTHORIZED" "missing x-appwrite-trigger header" "", s, []).
Proof.
  intros Hmissing. unfold handleRequest, VerifyTrigger, index.
  destruct Hmissing as [-> | ->]; reflexivity.
Qed.

(** X8: with the trigger header but without a session header (or with an
    empty one), the handler answers 401 AUTHENTICATION_FAILED "missing
    authentication token" without reading the environment or asking the
    account service. *)
Theorem missing_session_is_rejected
        (W : World) (s : wstate W) (req : AppwriteFunctionRequest) :
  VerifyTrigger (Headers req) = None ->
  Headers req !! "x-appwrite-session" = None
  \/ Headers req !! "x-appwrite-session" = Some "" ->
  run W (handleRequest req) s
  = (respondError 401 "AUTHENTICATION_FAILED" "missing authentication token" "", s, []).
Proof.
  intros Htrig Hmissing. unfold handleRequest, AuthenticateUser, index.
  rewrite Htrig. destruct Hmissing as [-> | ->]; reflexivity.
Qed.

(** X9: given a session token, [AuthenticateUser] reads three values from
    the process environment, then asks the account service once, with a
    client whose endpoint, project and key are the values read and whose
    session header is the token. Its result is the user's identity with
    the token as session id, or the service's error behind the prefix
    "authentication failed: ". *)
Theorem AuthenticateUser_calls
        (W : World) (s : wstate W) (headers : gmap string string) (token : string) :
  headers !! "x-appwrite-session" = Some token ->
  token <> "" ->
  exists (endpoint project key : string) (c : Client) (r : res User),
    trace_of W (AuthenticateUser headers) s
    = [Ev (OsGetenv auth_endpoint_name) endpoint;
       Ev (OsGetenv auth_project_name) project;
       Ev (OsGetenv auth_key_name) key;
       Ev (AccountGet c) r]
    /\ Endpoint c = endpoint
    /\ ClientHeaders c !! "X-Appwrite-Project" = Some project
    /\ ClientHeaders c !! "X-Appwrite-Key" = Some key
    /\ ClientHeaders c !! "X-Appwrite-Session" = Some token
    /\ result_of W (AuthenticateUser headers) s
       = match r with
         | Ok user =>
           Ok {| SessionInfo_UserID := User_Id user;
                 SessionInfo_SessionID := token;
                 SessionInfo_Email := User_Email user;
                 SessionInfo_Name := User_Name user |}
         | Err err => Err ("authentication failed: " +:+ err)
         end.
Proof.
  intros Hlookup Htoken.
  assert (Hindex : index headers "x-appwrite-session" = token).
  { unfold index. rewrite Hlookup. reflexivity. }
  unfold trace_of, result_of, AuthenticateUser. rewrite Hindex.
  destruct (decide (token = "")) as [Heq|_]; [contradiction|].
  exec; do 5 eexists; (split; [reflexivity|]); cbn [Endpoint ClientHeaders AddHeader set_Endpoint];
    repeat split; by simplify_map_eq.
Qed.

(** X10: when authentication fails, the handler answers 401
    AUTHENTICATION_FAILED with the error's text; nothing is created,
    nothing deleted, nothing logged. *)
Theorem authentication_failure_creates_nothing
        (W : World) (s : wstate W) (req : AppwriteFunctionRequest) (err : string) :
  VerifyTrigger (Headers req) = None ->
  result_of W (AuthenticateUser (Headers req)) s = Err err ->
  result_of W (handleRequest req) s = respondError 401 "AUTHENTICATION_FAILED" err ""
  /\ creation_calls (trace_of W (handleRequest req) s) = []
  /\ deleted_teams (trace_of W (handleRequest req) s) = []
  /\ logs (trace_of W (handleRequest req) s) = [].
Proof.
  intros Htrig Hauth.
  pose proof (AuthenticateUser_trace W s (Headers req)) as (Hc & _ & _ & Hd & _ & Hl).
  unfold result_of, trace_of, handleRequest in *.
  rewrite Htrig, run_bind.
  destruct (run W (AuthenticateUser (Headers req)) s) as [[auth s1] t1].
  simpl in Hauth, Hc, Hd, Hl. subst auth. cbn. rewrite app_nil_r. auto.
Qed.

(** X11: when the body is refused by [ValidateInput], the handler answers
    400 INVALID_INPUT with the error's text and makes no creation call. *)
Theorem rejected_body_creates_nothing
        (W : World) (s : wstate W) (req : AppwriteFunctionRequest)
        (sessionInfo : SessionInfo) (err : string) :
  VerifyTrigger (Headers req) = None ->
  result_of W (AuthenticateUser (Headers req)) s = Ok sessionInfo ->
  ValidateInput (Body req) = Err err ->
  result_of W (handleRequest req) s = respondError 400 "INVALID_INPUT" err ""
  /\ creation_calls (trace_of W (handleRequest req) s) = [].
Proof.
  intros Htrig Hauth Hbody.
  pose proof (AuthenticateUser_trace W s (Headers req)) as (Hc & _).
  unfold result_of, trace_of, handleRequest in *.
  rewrite Htrig, run_bind.
  destruct (run W (AuthenticateUser (Headers req)) s) as [[auth s1] t1].
  simpl in Hauth, Hc. subst auth. rewrite Hbody. cbn. rewrite app_nil_r. auto.
Qed.

(** X12: every answer of the handler has status 200, 400 or 401, or is
    one of two fixed 500 answers; the text of a platform error never
    enters a 500 answer. *)
Theorem handleRequest_status_codes
        (W : World) (s : wstate W) (req : AppwriteFunctionRequest) :
  let r := result_of W (handleRequest req) s in
  StatusCode r = 200 \/ StatusCode r = 400 \/ StatusCode r = 401
  \/ r = respondError 500 "TEAM_CREATION_FAILED" "Failed to create workspace team" ""
  \/ r = respondError 500 "WORKSPACE_CREATION_FAILED"
                      "Failed to create workspace document" "".
Proof.
  intros r. subst r. open_handler. exec; simpl; auto 6.
Qed.

(** X13: when team creation fails, the answer is the 500
    TEAM_CREATION_FAILED error; no document creation is attempted, no
    delete is issued, and the platform's error goes to the log only. *)
Theorem team_creation_failure
        (W : World) (s : wstate W) (req : AppwriteFunctionRequest) (err : string) :
  let t := trace_of W (handleRequest req) s in
  In (Err err) (team_outcomes t) ->
  result_of W (handleRequest req) s
  = respondError 500 "TEAM_CREATION_FAILED" "Failed to create workspace team" ""
  /\ document_outcomes t = []
  /\ deleted_teams t = []
  /\ logs t = ["Error creating team: " +:+ err].
Proof.
  intros t. subst t. open_handler.
  exec; simpl; intros Hteam; try contradiction;
    repeat match goal with
           | Hx : _ \/ False |- _ => destruct Hx as [Hx|[]]
           end;
    try discriminate.
  simplify_eq. repeat split.
Qed.

(** X14: in one invocation the handler creates at most one team and at
    most one document; it attempts the document only after the team was
    created; and it deletes a team only after the document creation
    failed, and then exactly the team it created. *)
Theorem handleRequest_call_discipline
        (W : World) (s : wstate W) (req : AppwriteFunctionRequest) :
  let t := trace_of W (handleRequest req) s in
  (length (team_outcomes t) <= 1)%nat
  /\ (length (document_outcomes t) <= 1)%nat
  /\ (document_outcomes t <> [] -> exists team, team_outcomes t = [Ok team])
  /\ (forall teamId : string,
         In teamId (deleted_teams t) ->
         exists (team : Team) (err : string),
           team_outcomes t = [Ok team]
           /\ document_outcomes t = [Err err]
           /\ deleted_teams t = [Team_Id team]
           /\ teamId = Team_Id team).
Proof.
  intros t. subst t. open_handler.
  exec; simpl; (split; [lia|]); (split; [lia|]);
    (split; [intros Hne; try contradiction; eauto|]);
    intros teamId Hin; try contradiction.
  destruct Hin as [<-|[]]. eauto 6.
Qed.

End HandlerGates.

Section HandlerCalls.
Context `{GoLib}.

(** X15: a team is only ever created for a name that passed the three
    checks of validation; the call asks for a generated identifier
    ("unique()") and names the team "<sanitized name> Workspace". *)
Theorem team_created_only_for_valid_name
        (W : World) (s : wstate W) (req : AppwriteFunctionRequest) :
  Forall (fun call : string * string =>
            fst call = "unique()"
            /\ exists createReq : WorkspaceCreateRequest,
                ValidateInput (Body req) = Ok createReq
                /\ valid_name (SanitizeString (Req_Name createReq)) = true
                /\ snd call = SanitizeString (Req_Name createReq) +:+ " Workspace")
         (team_calls (trace_of W (handleRequest req) s)).
Proof.
  open_handler. exec; simpl; repeat constructor.
  all: eexists; split; [reflexivity|]; split; [|reflexivity].
  all: unfold valid_name;
    match goal with
    | Hn : SanitizeString _ <> "" |- _ => rewrite (bool_decide_eq_false_2 _ Hn)
    end;
    match goal with
    | Hl : (_ <? 3)%nat || _ = false |- _ => rewrite Hl
    end;
    match goal with
    | Hm : negb _ = false |- _ => apply negb_false_iff in Hm; rewrite Hm
    end; reflexivity.
Qed.

(** X16: every document-creation call asks for a generated identifier
    and carries a payload whose teamId and tenantId are both the id of
    the team just created, whose status is "active", whose name is the
    sanitized name and whose slug is derived from it; the permissions
    grant read to the team and write to the team's owners. *)
Theorem document_call_content
        (W : World) (s : wstate W) (req : AppwriteFunctionRequest) :
  let t := trace_of W (handleRequest req) s in
  Forall (fun call : string * gmap string string * list string =>
            let '(documentId, data, permissions) := call in
            documentId = "unique()"
            /\ exists (team : Team) (createReq : WorkspaceCreateRequest),
                team_outcomes t = [Ok team]
                /\ ValidateInput (Body req) = Ok createReq
                /\ data !! "teamId" = Some (Team_Id team)
                /\ data !! "tenantId" = Some (Team_Id team)
                /\ data !! "status" = Some "active"
                /\ data !! "name" = Some (SanitizeString (Req_Name createReq))
                /\ data !! "slug"
                   = Some (generateSlug (SanitizeString (Req_Name createReq)))
                /\ data !! "description" = Some (Req_Description createReq)
                /\ permissions
                   = [ "read(" +:+ dquote +:+ "team:" +:+ Team_Id team +:+ dquote +:+ ")";
                       "write(" +:+ dquote +:+ "team:" +:+ Team_Id team
                                +:+ "[owner]" +:+ dquote +:+ ")" ])
         (document_calls t).
Proof.
  intros t. subst t. open_handler. exec; simpl; repeat constructor.
  all: do 2 eexists; split; [reflexivity|]; split; [reflexivity|].
  all: unfold workspaceDoc, permissions_for; repeat split; by simplify_map_eq.
Qed.

(** X17: a 200 answer is the success response of a workspace whose id is
    the stored document's, whose team and tenant are the created team,
    whose owner is the authenticated user, whose name and slug are the
    sanitized name and its slug, and whose creation time is the one value
    read from the clock, the same that was stored in the document. *)
Theorem success_response_content
        (W : World) (s : wstate W) (req : AppwriteFunctionRequest) :
  let t := trace_of W (handleRequest req) s in
  StatusCode (result_of W (handleRequest req) s) = 200 ->
  exists (sessionInfo : SessionInfo) (createReq : WorkspaceCreateRequest)
         (team : Team) (doc : Document) (createdAt : string),
    result_of W (AuthenticateUser (Headers req)) s = Ok sessionInfo
    /\ ValidateInput (Body req) = Ok createReq
    /\ team_outcomes t = [Ok team]
    /\ document_outcomes t = [Ok doc]
    /\ clock_reads t = [createdAt]
    /\ Forall (fun call : string * gmap string string * list string =>
                 snd (fst call) !! "createdAt" = Some createdAt
                 /\ snd (fst call) !! "ownerId" = Some (SessionInfo_UserID sessionInfo))
              (document_calls t)
    /\ result_of W (handleRequest req) s
       = success_response
           {| Workspace_ID := Document_Id doc;
              Workspace_Name := SanitizeString (Req_Name createReq);
              Workspace_Slug := generateSlug (SanitizeString (Req_Name createReq));
              Workspace_TeamID := Team_Id team;
              Workspace_OwnerID := SessionInfo_UserID sessionInfo;
              Workspace_CreatedAt := createdAt;
              Workspace_Status := "active";
              Workspace_Plan :=
                if decide (Req_Plan createReq = "") then "free" else Req_Plan createReq;
              Workspace_TenantID := Team_Id team |}.
Proof.
  intros t. subst t. open_handler.
  exec; simpl; intros Hstatus; try discriminate Hstatus.
  all: do 5 eexists; do 5 (split; [reflexivity|]).
  all: split; [repeat constructor; unfold workspaceDoc; by simplify_map_eq|].
  all: unfold success_response, index, workspaceDoc; repeat f_equal;
    by simplify_map_eq.
Qed.

(** X18: the handler never makes an HTTP request and never writes to
    standard output; the only names it looks up in the process
    environment are the three of [AuthenticateUser]. The APPWRITE_
    settings are read from the request's env map, never from the
    process. *)
Theorem handleRequest_no_output
        (W : World) (s : wstate W) (req : AppwriteFunctionRequest) :
  let t := trace_of W (handleRequest req) s in
  http_requests t = []
  /\ stdout t = []
  /\ Forall (fun read : string * string =>
               In (fst read) [auth_endpoint_name; auth_project_name; auth_key_name])
            (env_reads t).
Proof.
  intros t. subst t. open_handler.
  exec; simpl; (split; [reflexivity|]); (split; [reflexivity|]).
  all: repeat (apply List.Forall_cons; [simpl; auto|]); apply List.Forall_nil.
Qed.

End HandlerCalls.

(** ** More on slug derivation *)

Section Joining.
Import regexp strings SlugSpec.

Variable sep : ascii -> bool.
Variable c0 : ascii.
Hypothesis sep_c0 : sep c0 = true.

Lemma fields_app_sepfree (w l : list ascii) :
  Forall (fun c => sep c = false) w ->
  fields sep (w ++ l)
  = match fields sep l with
    | f :: fs => (w ++ f) :: fs
    | [] => [w]
    end.
Proof.
  induction 1 as [|c w Hc _ IH]; simpl.
  - destruct (fields sep l) eqn:E; [exfalso; exact (fields_not_nil sep l E) | reflexivity].
  - rewrite Hc, IH. destruct (fields sep l); reflexivity.
Qed.

Lemma fields_sep_cons (t : list ascii) :
  fields sep (c0 :: t) = [] :: fields sep t.
Proof. simpl. now rewrite sep_c0. Qed.

(** Cutting the joined words at the separators gives the words back. *)
Lemma fields_join (ws : list (list ascii)) :
  ws <> [] ->
  Forall (Forall (fun c => sep c = false)) ws ->
  fields sep (join [c0] ws) = ws.
Proof.
  intros Hne Hws. induction Hws as [|w rest Hw Hrest IH]; [contradiction|].
  destruct rest as [|w' rest'].
  - simpl. rewrite <- (app_nil_r w) at 1. rewrite (fields_app_sepfree w [] Hw).
    simpl. now rewrite app_nil_r.
  - change (join [c0] (w :: w' :: rest')) with (w ++ c0 :: join [c0] (w' :: rest')).
    rewrite (fields_app_sepfree w _ Hw), fields_sep_cons.
    rewrite IH by discriminate. now rewrite app_nil_r.
Qed.

Lemma filter_nonempty_id (ws : list (list ascii)) :
  Forall (fun w => nonempty w = true) ws -> List.filter nonempty ws = ws.
Proof.
  induction 1 as [|w rest Hw _ IH]; simpl; [reflexivity|]. now rewrite Hw, IH.
Qed.

Lemma words_join (ws : list (list ascii)) :
  Forall (fun w => nonempty w = true) ws ->
  Forall (Forall (fun c => sep c = false)) ws ->
  words sep (join [c0] ws) = ws.
Proof.
  intros Hne Hfree. destruct ws as [|w rest]; [reflexivity|].
  unfold words. rewrite fields_join by (discriminate || assumption).
  apply filter_nonempty_id. exact Hne.
Qed.

Lemma words_sepfree (l : list ascii) :
  Forall (Forall (fun c => sep c = false)) (words sep l).
Proof.
  unfold words. apply List.Forall_forall. intros w Hw. apply filter_In in Hw as [Hw _].
  pose proof (fields_chars sep l) as Hf. rewrite List.Forall_forall in Hf. exact (Hf w Hw).
Qed.

(** Joining words and cutting again changes nothing. *)
Lemma join_words_idempotent (l : list ascii) :
  join [c0] (words sep (join [c0] (words sep l))) = join [c0] (words sep l).
Proof.
  rewrite words_join; [reflexivity | apply words_nonempty | apply words_sepfree].
Qed.

Lemma words_nil_iff (l : list ascii) :
  words sep l = [] <-> forallb sep l = true.
Proof.
  induction l as [|c t IH]; [split; reflexivity|].
  destruct (sep c) eqn:Hc.
  - rewrite (words_sep sep c t Hc). simpl. rewrite Hc. exact IH.
  - simpl forallb. rewrite Hc. simpl. split; [|discriminate].
    unfold words. simpl fields. rewrite Hc.
    destruct (fields sep t); discriminate.
Qed.

Lemma join_nil_iff (ws : list (list ascii)) :
  Forall (fun w => nonempty w = true) ws -> (join [c0] ws = [] <-> ws = []).
Proof.
  intros Hne. split; [apply join_nil_inv; exact Hne | intros ->; reflexivity].
Qed.

(** Where the first separator of two equal texts can be. *)
Lemma app_sep_split (w a X Y : list ascii) :
  ~ In c0 w ->
  w ++ c0 :: X = a ++ c0 :: Y ->
  (a = w /\ X = Y) \/ exists a', a = w ++ c0 :: a' /\ X = a' ++ c0 :: Y.
Proof.
  revert a. induction w as [|x w IH]; intros a Hnot Heq.
  - destruct a as [|y a]; simpl in *.
    + left. split; [reflexivity | congruence].
    + right. injection Heq as <- ->. eauto.
  - destruct a as [|y a]; simpl in *.
    + injection Heq as -> _. exfalso. apply Hnot. left. reflexivity.
    + injection Heq as <- Heq.
      destruct (IH a (fun Hin => Hnot (or_intror Hin)) Heq) as [[-> ->]|[a' [-> ->]]].
      * left. split; reflexivity.
      * right. eauto.
Qed.

Lemma sepfree_not_in (w : list ascii) :
  Forall (fun c => sep c = false) w -> ~ In c0 w.
Proof.
  intros Hw Hin. rewrite List.Forall_forall in Hw. specialize (Hw c0 Hin). congruence.
Qed.

Lemma join_head (ws : list (list ascii)) (x : ascii) :
  Forall (fun w => nonempty w = true) ws ->
  Forall (Forall (fun c => sep c = false)) ws ->
  hd_error (join [c0] ws) = Some x -> sep x = false.
Proof.
  intros Hne Hfree. destruct ws as [|w rest]; [discriminate|].
  inversion Hne as [|? ? Hw _]; subst. inversion Hfree as [|? ? Hfw _]; subst.
  destruct w as [|y w]; [discriminate|]. inversion Hfw; subst.
  simpl. destruct rest; simpl; intros Hx; injection Hx as <-; assumption.
Qed.

(** The joined words never show two separators in a row. *)
Lemma join_no_double (ws : list (list ascii)) (a b : list ascii) :
  Forall (fun w => nonempty w = true) ws ->
  Forall (Forall (fun c => sep c = false)) ws ->
  join [c0] ws <> a ++ c0 :: c0 :: b.
Proof.
  intros Hne Hfree. revert a.
  induction ws as [|w rest IH]; intros a Heq.
  - destruct a; discriminate.
  - inversion Hne as [|? ? Hw Hne']; subst. inversion Hfree as [|? ? Hfw Hfree']; subst.
    destruct rest as [|w' rest'].
    + simpl in Heq. apply (sepfree_not_in w Hfw). rewrite Heq.
      apply in_or_app. right. left. reflexivity.
    + change (join [c0] (w :: w' :: rest')) with (w ++ c0 :: join [c0] (w' :: rest')) in Heq.
      apply app_sep_split in Heq; [|apply sepfree_not_in; exact Hfw].
      destruct Heq as [[_ Heq]|[a' [_ Heq]]].
      * pose proof (join_head (w' :: rest') c0 Hne' Hfree') as Hhd.
        rewrite Heq in Hhd. specialize (Hhd eq_refl). congruence.
      * exact (IH Hne' Hfree' a' Heq).
Qed.

Lemma trimLeftByte_head (l : list ascii) : hd_error (trimLeftByte c0 l) <> Some c0.
Proof.
  induction l as [|x l IH]; simpl; [discriminate|].
  destruct (Ascii.eqb_spec x c0) as [->|Hne]; [exact IH|].
  simpl. congruence.
Qed.

Lemma trimLeftByte_suffix (l : list ascii) :
  exists p : list ascii, l = p ++ trimLeftByte c0 l.
Proof.
  induction l as [|x l [p Hp]]; simpl; [exists []; reflexivity|].
  destruct (Ascii.eqb x c0); [|exists []; reflexivity].
  exists (x :: p). simpl. now f_equal.
Qed.

(** [Trim] leaves no cut byte at either end. *)
Lemma Trim_byte_ends (l : list ascii) :
  hd_error (Trim_byte c0 l) <> Some c0
  /\ hd_error (rev (Trim_byte c0 l)) <> Some c0.
Proof.
  unfold Trim_byte, trimRightByte. split; [apply trimLeftByte_head|].
  set (y := trimLeftByte c0 (rev l)).
  pose proof (trimLeftByte_head (rev l)) as Hy. fold y in Hy.
  destruct (trimLeftByte_suffix (rev y)) as [p Hp].
  destruct (rev (trimLeftByte c0 (rev y))) as [|x r] eqn:Hr; [discriminate|].
  assert (Hyx : y = x :: r ++ rev p).
  { rewrite <- (rev_involutive y), Hp, rev_app_distr, Hr. reflexivity. }
  rewrite Hyx in Hy. exact Hy.
Qed.

Lemma trimLeftByte_length (l : list ascii) :
  (length (trimLeftByte c0 l) <= length l)%nat.
Proof.
  induction l as [|x l IH]; simpl; [lia|]. destruct (Ascii.eqb x c0); simpl; lia.
Qed.

Lemma Trim_byte_length (l : list ascii) :
  (length (Trim_byte c0 l) <= length l)%nat.
Proof.
  unfold Trim_byte, trimRightByte.
  etransitivity; [apply trimLeftByte_length|].
  rewrite length_rev. etransitivity; [apply trimLeftByte_length|].
  now rewrite length_rev.
Qed.

Lemma replace_runs_length (b : bool) (l : list ascii) :
  (length (replace_runs sep [c0] b l) <= length l)%nat.
Proof.
  revert b. induction l as [|c t IH]; intros b; simpl; [lia|].
  destruct (sep c).
  - destruct b; simpl; [specialize (IH true); lia | specialize (IH true); lia].
  - simpl. specialize (IH false). lia.
Qed.

End Joining.

Lemma slug_char_fixed (c : ascii) :
  regexp.is_lower c || regexp.is_digit c = true \/ c = hyphen ->
  strings.isASCII c = true /\ strings.lower_byte c = c.
Proof.
  destruct c as [[] [] [] [] [] [] [] []]; intros [Hc|Hc];
    try discriminate Hc; split; reflexivity.
Qed.

Lemma lower_byte_separator (c : ascii) :
  strings.isASCII c = true ->
  regexp.not_slug_char (strings.lower_byte c) = negb (is_alnum c).
Proof.
  destruct c as [[] [] [] [] [] [] [] []]; intros Hc; try discriminate Hc; reflexivity.
Qed.

Lemma name_class_isASCII (c : ascii) :
  regexp.name_class c = true -> strings.isASCII c = true.
Proof.
  destruct c as [[] [] [] [] [] [] [] []]; intros Hc; try discriminate Hc; reflexivity.
Qed.

Lemma of_bytes_nil_iff (l : list ascii) : of_bytes l = "" <-> l = [].
Proof. destruct l; simpl; split; intros Heq; try reflexivity; discriminate Heq. Qed.

Section SlugMore.
Context `{GoLib}.

Lemma generateSlug_bytes (name : string) :
  bytes (generateSlug name)
  = SlugSpec.join [hyphen]
      (SlugSpec.words regexp.not_slug_char
         (strings.ToLower unicode_case_lower (bytes name))).
Proof. rewrite generateSlug_is_spec_slug. unfold SlugSpec.slug. apply bytes_of_bytes. Qed.

Lemma joined_words_chars (l : list ascii) :
  Forall (fun c => regexp.is_lower c || regexp.is_digit c = true \/ c = hyphen)
         (SlugSpec.join [hyphen] (SlugSpec.words regexp.not_slug_char l)).
Proof.
  apply join_chars; [right; reflexivity|].
  eapply List.Forall_impl; [|apply words_sepfree].
  intros w Hw. eapply List.Forall_impl; [|exact Hw].
  intros c Hc. left. unfold regexp.not_slug_char in Hc. now apply negb_false_iff in Hc.
Qed.

Lemma ToLower_slug_chars (l : list ascii) :
  Forall (fun c => regexp.is_lower c || regexp.is_digit c = true \/ c = hyphen) l ->
  strings.ToLower unicode_case_lower l = l.
Proof.
  intros Hl. unfold strings.ToLower.
  assert (Hascii : forallb strings.isASCII l = true).
  { apply forallb_forall. intros c Hc. rewrite List.Forall_forall in Hl.
    exact (proj1 (slug_char_fixed c (Hl c Hc))). }
  rewrite Hascii. induction Hl as [|c l Hc _ IH]; simpl; [reflexivity|].
  simpl in Hascii. apply andb_true_iff in Hascii as [_ Hascii].
  rewrite (proj2 (slug_char_fixed c Hc)), (IH Hascii). reflexivity.
Qed.

(** X23: a slug neither starts nor ends with a hyphen and never holds two
    hyphens in a row. *)
Theorem generateSlug_shape (name : string) :
  hd_error (bytes (generateSlug name)) <> Some hyphen
  /\ hd_error (rev (bytes (generateSlug name))) <> Some hyphen
  /\ forall a b : list ascii, bytes (generateSlug name) <> a ++ hyphen :: hyphen :: b.
Proof.
  split; [|split].
  - unfold generateSlug. rewrite bytes_of_bytes.
    apply (Trim_byte_ends hyphen).
  - unfold generateSlug. rewrite bytes_of_bytes.
    apply (Trim_byte_ends hyphen).
  - intros a b. rewrite generateSlug_bytes.
    apply (join_no_double regexp.not_slug_char hyphen hyphen_is_separator).
    + apply words_nonempty.
    + apply words_sepfree.
Qed.

(** X24: deriving the slug of a slug gives the same slug. *)
Theorem generateSlug_idempotent (name : string) :
  generateSlug (generateSlug name) = generateSlug name.
Proof.
  rewrite (generateSlug_is_spec_slug (generateSlug name)). unfold SlugSpec.slug.
  rewrite generateSlug_bytes.
  rewrite (ToLower_slug_chars _ (joined_words_chars _)).
  rewrite (join_words_idempotent regexp.not_slug_char hyphen hyphen_is_separator).
  rewrite <- generateSlug_bytes. apply of_bytes_bytes.
Qed.

Lemma ToLower_ascii (l : list ascii) :
  forallb strings.isASCII l = true ->
  strings.ToLower unicode_case_lower l = map strings.lower_byte l.
Proof. intros Hl. unfold strings.ToLower. now rewrite Hl. Qed.

(** X25: for a name of ASCII bytes, the slug is empty exactly when the
    name holds no letter and no digit. *)
Theorem generateSlug_empty_iff (name : string) :
  forallb strings.isASCII (bytes name) = true ->
  generateSlug name = "" <-> forallb (fun c => negb (is_alnum c)) (bytes name) = true.
Proof.
  intros Hascii. rewrite generateSlug_is_spec_slug. unfold SlugSpec.slug.
  rewrite of_bytes_nil_iff.
  rewrite (join_nil_iff hyphen _ (words_nonempty _ _)).
  rewrite words_nil_iff, (ToLower_ascii _ Hascii).
  assert (Hext : forallb regexp.not_slug_char (map strings.lower_byte (bytes name))
                 = forallb (fun c => negb (is_alnum c)) (bytes name)).
  { revert Hascii. induction (bytes name) as [|c l IH]; simpl; [reflexivity|].
    intros Hall. apply andb_true_iff in Hall as [Hc Hl].
    rewrite (lower_byte_separator c Hc), (IH Hl). reflexivity. }
  rewrite Hext. reflexivity.
Qed.

Lemma generateSlug_length_ascii (name : string) :
  forallb strings.isASCII (bytes name) = true ->
  (len (generateSlug name) <= len name)%nat.
Proof.
  intros Hascii. unfold generateSlug. rewrite len_of_bytes, <- len_bytes.
  etransitivity; [apply Trim_byte_length|].
  unfold regexp.ReplaceAll_plus.
  etransitivity; [apply replace_runs_length|].
  rewrite (ToLower_ascii _ Hascii), length_map. reflexivity.
Qed.

(** X26: a name that passes validation is made of ASCII bytes, and its
    slug is at most as long as the name, hence at most 50 bytes. *)
Theorem valid_name_slug_bound (name : string) :
  valid_name name = true ->
  forallb strings.isASCII (bytes name) = true
  /\ (len (generateSlug name) <= len name)%nat
  /\ (len (generateSlug name) <= 50)%nat.
Proof.
  unfold valid_name. intros Hvalid.
  apply andb_true_iff in Hvalid as [Hvalid Hmatch].
  apply andb_true_iff in Hvalid as [_ Hlen].
  apply negb_true_iff, orb_false_iff in Hlen as [_ Hlen]. apply Nat.ltb_ge in Hlen.
  assert (Hascii : forallb strings.isASCII (bytes name) = true).
  { unfold regexp.match_name in Hmatch. destruct (bytes name) as [|c l]; [discriminate|].
    apply forallb_forall. intros x Hx. rewrite forallb_forall in Hmatch.
    apply name_class_isASCII, Hmatch, Hx. }
  pose proof (generateSlug_length_ascii name Hascii).
  repeat split; [exact Hascii | lia | lia].
Qed.

End SlugMore.

(** ** The webhook service *)

Section WebhookService.
Context `{GoLib}.

(** X28: [SendWelcomeWebhook] reports success exactly when it sent one
    request and the answer had a status from 200 to 299; with a setting
    missing, a request that cannot be built, a transport error or another
    status it returns an error. *)
Theorem services_SendWelcomeWebhook_success
        (W : World) (s : wstate W) (workspaceName userEmail teamID : string) :
  let p := services_SendWelcomeWebhook workspaceName userEmail teamID in
  result_of W p s = None
  <-> exists (req : HttpRequest) (status : Z),
      http_outcomes (trace_of W p s) = [(req, Ok status)]
      /\ 200 <= status < 300.
Proof.
  intros p. subst p. unfold result_of, trace_of, services_SendWelcomeWebhook.
  exec; simpl; split; intros Hres; try discriminate Hres; try reflexivity.
  all: try (destruct Hres as (req & status & Hout & Hrange); discriminate Hout).
  - destruct Hres as (req & status & Hout & Hrange). injection Hout as _ ->.
    match goal with
    | Hb : (_ <? 200) || _ = true |- _ => apply orb_true_iff in Hb as [Hlow|Hhigh]; lia
    end.
  - do 2 eexists. split; [reflexivity|].
    match goal with
    | Hb : (_ <? 200) || _ = false |- _ => apply orb_false_iff in Hb as [Hlow Hhigh]; lia
    end.
Qed.

(** [SendWelcomeWebhook] takes its two settings from the process
    environment, both before it checks either; when one of them is empty
    it returns "webhook configuration missing" without reading the clock
    or sending anything. *)
Theorem services_SendWelcomeWebhook_unconfigured
        (W : World) (s : wstate W) (workspaceName userEmail teamID : string) :
  let p := services_SendWelcomeWebhook workspaceName userEmail teamID in
  exists webhookURL apiKey : string,
    env_reads (trace_of W p s) = [("WEBHOOK_URL", webhookURL); ("WEBHOOK_API_KEY", apiKey)]
    /\ (webhookURL = "" \/ apiKey = "" ->
        result_of W p s = Some "webhook configuration missing"
        /\ http_requests (trace_of W p s) = []
        /\ clock_reads (trace_of W p s) = []).
Proof.
  intros p. subst p. unfold result_of, trace_of, services_SendWelcomeWebhook.
  exec; simpl; do 2 eexists; (split; [reflexivity|]); intros Hempty;
    try (repeat split; reflexivity).
  all: exfalso;
    match goal with
    | Hb : bool_decide _ || bool_decide _ = false |- _ =>
      apply orb_false_iff in Hb as [Hu Hk];
      apply bool_decide_eq_false in Hu; apply bool_decide_eq_false in Hk
    end;
    destruct Hempty; contradiction.
Qed.

End WebhookService.

(** ** The team service *)

Lemma strings_HasPrefix_spec (s prefix : list ascii) :
  strings_HasPrefix s prefix = true <-> exists rest, s = prefix ++ rest.
Proof.
  revert s. induction prefix as [|p prefix IH]; intros s; simpl.
  - split; [intros _; exists s; reflexivity | reflexivity].
  - destruct s as [|c s]; [split; [discriminate | intros [rest Hrest]; discriminate]|].
    rewrite andb_true_iff, IH. split.
    + intros [Hc [rest ->]]. apply Ascii.eqb_eq in Hc as ->. eauto.
    + intros [rest Hrest]. injection Hrest as -> ->. rewrite Ascii.eqb_refl. eauto.
Qed.

(** [strings.Contains s substr] holds exactly when [substr] is a
    contiguous part of [s]. *)
Lemma strings_Contains_spec (s substr : list ascii) :
  strings_Contains s substr = true
  <-> exists before after, s = before ++ substr ++ after.
Proof.
  induction s as [|c s IH].
  - simpl. rewrite orb_false_r, strings_HasPrefix_spec. split.
    + intros [rest Hrest]. exists [], rest. exact Hrest.
    + intros (before & after & Heq). destruct before; [eauto|discriminate].
  - cbn [strings_Contains]. rewrite orb_true_iff, strings_HasPrefix_spec, IH. split.
    + intros [[rest Hrest]|(before & after & ->)].
      * exists [], rest. exact Hrest.
      * exists (c :: before), after. reflexivity.
    + intros (before & after & Heq). destruct before as [|x before].
      * left. eauto.
      * right. injection Heq as -> ->. eauto.
Qed.

Lemma append_ids (teams : list Team) (acc : list string) :
  fold_left (fun (teamIDs : list string) (team : Team) => teamIDs ++ [Team_Id team])
            teams acc
  = acc ++ map Team_Id teams.
Proof.
  revert acc. induction teams as [|team teams IH]; intros acc; simpl.
  - now rewrite app_nil_r.
  - rewrite IH, <- app_assoc. reflexivity.
Qed.

Section TeamServiceProperties.
Context `{GoLib}.

(** [NewTeamService] never fails; it reads APPWRITE_ENDPOINT,
    APPWRITE_PROJECT_ID and APPWRITE_API_KEY from the process
    environment, in that order, and the client of the service it returns
    has the first as endpoint and the other two as its project and key
    headers. *)
Theorem NewTeamService_configuration (W : World) (s : wstate W) :
  exists (endpoint project key : string) (ts : TeamService),
    env_reads (trace_of W NewTeamService s)
    = [("APPWRITE_ENDPOINT", endpoint); ("APPWRITE_PROJECT_ID", project);
       ("APPWRITE_API_KEY", key)]
    /\ length (trace_of W NewTeamService s) = 3%nat
    /\ result_of W NewTeamService s = Ok ts
    /\ TeamService_client ts = TeamService_teams ts
    /\ Endpoint (TeamService_teams ts) = endpoint
    /\ ClientHeaders (TeamService_teams ts) !! "X-Appwrite-Project" = Some project
    /\ ClientHeaders (TeamService_teams ts) !! "X-Appwrite-Key" = Some key.
Proof.
  unfold trace_of, result_of, NewTeamService. exec. simpl.
  do 4 eexists. do 3 (split; [reflexivity|]).
  cbn [TeamService_client TeamService_teams Endpoint ClientHeaders AddHeader set_Endpoint].
  repeat split; by simplify_map_eq.
Qed.

End TeamServiceProperties.

Section TeamServiceCallProperties.
Context {S : Type}.
Variable teams_CreateMembership :
  Client -> string -> list string -> S -> res Membership * S.
Variable teams_List : Client -> S -> res TeamList * S.

(** X29: [AssignTeamRole] asks for one membership with the single role
    given, and returns no error exactly when the call succeeded or its
    error text holds "already exists" somewhere; any other error comes
    back behind the prefix "failed to assign team role: ". The platform
    is left as the call left it. *)
Theorem AssignTeamRole_outcome
        (ts : TeamService) (teamID userID role : string) (s : S) :
  let called := teams_CreateMembership (TeamService_teams ts) teamID [role] s in
  let out := AssignTeamRole teams_CreateMembership ts teamID userID role s in
  snd out = snd called
  /\ (fst out = None
      <-> (exists m, fst called = Ok m)
          \/ exists err before after,
              fst called = Err err
              /\ bytes err = before ++ bytes "already exists" ++ after)
  /\ (forall e, fst out = Some e ->
                exists err, fst called = Err err
                            /\ e = "failed to assign team role: " +:+ err).
Proof.
  intros called out. subst called out. unfold AssignTeamRole.
  destruct (teams_CreateMembership (TeamService_teams ts) teamID [role] s) as [r s1].
  destruct r as [m|err]; cbn [fst snd].
  - split; [reflexivity|]. split; [|discriminate].
    split; [eauto | reflexivity].
  - destruct (strings_Contains (bytes err) (bytes "already exists")) eqn:Hc;
      cbn [negb fst snd]; (split; [reflexivity|]); split.
    + split; [|reflexivity]. intros _. right.
      apply strings_Contains_spec in Hc as (before & after & Heq). eauto 6.
    + discriminate.
    + split; [discriminate|].
      intros [[m Hm]|(err' & before & after & Herr & Heq)]; [discriminate|].
      injection Herr as <-.
      assert (Hc' : strings_Contains (bytes err) (bytes "already exists") = true).
      { apply strings_Contains_spec. eauto. }
      congruence.
    + intros e He. injection He as <-. eauto.
Qed.

(** X30: [GetUserTeams] returns the id of every team the platform lists,
    in the order listed, whoever the user is; a failure of the listing
    comes back behind the prefix "failed to list teams: ". *)
Theorem GetUserTeams_lists_every_team
        (ts : TeamService) (userID : string) (s : S) :
  GetUserTeams teams_List ts userID s
  = (match fst (teams_List (TeamService_teams ts) s) with
     | Ok teamsList => Ok (map Team_Id (TeamList_Teams teamsList))
     | Err err => Err ("failed to list teams: " +:+ err)
     end,
     snd (teams_List (TeamService_teams ts) s)).
Proof.
  unfold GetUserTeams.
  destruct (teams_List (TeamService_teams ts) s) as [[teamsList|err] s1]; cbn [fst snd].
  - rewrite append_ids. reflexivity.
  - reflexivity.
Qed.

End TeamServiceCallProperties.

(** ** The further properties at sample inputs *)

Lemma SanitizeString_unchanged_witness :
  ~ In NUL (bytes "Acme Corp")
  /\ (len "Acme Corp" <= 1000)%nat
  /\ ascii_nonspace "A"%char = true
  /\ ascii_nonspace "p"%char = true
  /\ SanitizeString "Acme Corp" = "Acme Corp".
Proof.
  assert (Hnul : ~ In NUL (bytes "Acme Corp")).
  { vm_compute. intuition discriminate. }
  assert (Hlen : (len "Acme Corp" <= 1000)%nat).
  { vm_compute. lia. }
  repeat (split; [first [assumption | reflexivity]|]).
  exact (SanitizeString_unchanged "Acme Corp" "A"%char "p"%char
           Hnul Hlen eq_refl eq_refl eq_refl eq_refl).
Defined.

Lemma SanitizeString_no_leading_space_witness :
  hd_error (bytes (SanitizeString "  x y  ")) = Some "x"%char
  /\ strings.asciiSpace "x"%char = false.
Proof.
  assert (Hhd : hd_error (bytes (SanitizeString "  x y  ")) = Some "x"%char).
  { vm_compute. reflexivity. }
  split; [exact Hhd|].
  exact (SanitizeString_no_leading_space "  x y  " "x"%char Hhd).
Defined.

Lemma SanitizeString_no_trailing_space_witness :
  (len "  x y  " <= 1000)%nat
  /\ hd_error (rev (bytes (SanitizeString "  x y  "))) = Some "y"%char
  /\ strings.asciiSpace "y"%char = false.
Proof.
  assert (Hlen : (len "  x y  " <= 1000)%nat).
  { vm_compute. lia. }
  assert (Hlast : hd_error (rev (bytes (SanitizeString "  x y  "))) = Some "y"%char).
  { vm_compute. reflexivity. }
  split; [exact Hlen|]. split; [exact Hlast|].
  exact (SanitizeString_no_trailing_space "  x y  " "y"%char Hlen Hlast).
Defined.

Lemma ValidateInput_blank_body_witness :
  forallb strings.asciiSpace (bytes "   ") = true
  /\ ValidateInput "   " = Err "request body is empty".
Proof.
  assert (Hblank : forallb strings.asciiSpace (bytes "   ") = true) by reflexivity.
  split; [exact Hblank|].
  exact (ValidateInput_blank_body "   " Hblank).
Defined.

Lemma missing_trigger_is_unauthorized_witness :
  Headers Sample2.bare_request !! "x-appwrite-trigger" = None
  /\ StatusCode (result_of Sample.platform (handleRequest Sample2.bare_request)
                           Sample.all_ok) = 401.
Proof.
  assert (Hmissing : Headers Sample2.bare_request !! "x-appwrite-trigger" = None).
  { vm_compute. reflexivity. }
  split; [exact Hmissing|].
  unfold result_of.
  rewrite (missing_trigger_is_unauthorized Sample.platform Sample.all_ok
             Sample2.bare_request (or_introl Hmissing)).
  reflexivity.
Defined.

Lemma missing_session_is_rejected_witness :
  VerifyTrigger (Headers Sample2.triggered_request) = None
  /\ Headers Sample2.triggered_request !! "x-appwrite-session" = None
  /\ trace_of Sample.platform (handleRequest Sample2.triggered_request) Sample.all_ok
     = [].
Proof.
  assert (Htrig : VerifyTrigger (Headers Sample2.triggered_request) = None).
  { vm_compute. reflexivity. }
  assert (Hmissing : Headers Sample2.triggered_request !! "x-appwrite-session" = None).
  { vm_compute. reflexivity. }
  split; [exact Htrig|]. split; [exact Hmissing|].
  unfold trace_of.
  rewrite (missing_session_is_rejected Sample.platform Sample.all_ok
             Sample2.triggered_request Htrig (or_introl Hmissing)).
  reflexivity.
Defined.

Lemma AuthenticateUser_calls_witness :
  Sample.headers !! "x-appwrite-session" = Some "session-token"
  /\ "session-token" <> ""
  /\ length (trace_of Sample.platform (AuthenticateUser Sample.headers) Sample.all_ok)
     = 4%nat.
Proof.
  assert (Hlookup : Sample.headers !! "x-appwrite-session" = Some "session-token").
  { vm_compute. reflexivity. }
  assert (Htoken : "session-token" <> "") by discriminate.
  split; [exact Hlookup|]. split; [exact Htoken|].
  destruct (AuthenticateUser_calls Sample.platform Sample.all_ok Sample.headers
              "session-token" Hlookup Htoken)
    as (endpoint & project & key & c & r & Htrace & _).
  rewrite Htrace. reflexivity.
Defined.

Lemma authentication_failure_creates_nothing_witness :
  let req := Sample.request Sample.acme Sample.env in
  VerifyTrigger (Headers req) = None
  /\ result_of Sample.platform (AuthenticateUser (Headers req)) Sample2.no_account
     = Err "authentication failed: general_unauthorized_scope"
  /\ creation_calls (trace_of Sample.platform (handleRequest req) Sample2.no_account)
     = [].
Proof.
  intros req.
  assert (Htrig : VerifyTrigger (Headers req) = None).
  { vm_compute. reflexivity. }
  assert (Hauth : result_of Sample.platform (AuthenticateUser (Headers req))
                            Sample2.no_account
                  = Err "authentication failed: general_unauthorized_scope").
  { vm_compute. reflexivity. }
  split; [exact Htrig|]. split; [exact Hauth|].
  exact (proj1 (proj2 (authentication_failure_creates_nothing
                         Sample.platform Sample2.no_account req _ Htrig Hauth))).
Defined.

Lemma rejected_body_creates_nothing_witness :
  let req := Sample2.truncated_request in
  VerifyTrigger (Headers req) = None
  /\ result_of Sample.platform (AuthenticateUser (Headers req)) Sample.all_ok
     = Ok Sample.session
  /\ ValidateInput (Body req) = Err "invalid JSON: unexpected end of JSON input"
  /\ StatusCode (result_of Sample.platform (handleRequest req) Sample.all_ok) = 400.
Proof.
  intros req.
  assert (Htrig : VerifyTrigger (Headers req) = None).
  { vm_compute. reflexivity. }
  assert (Hauth : result_of Sample.platform (AuthenticateUser (Headers req)) Sample.all_ok
                  = Ok Sample.session).
  { vm_compute. reflexivity. }
  assert (Hbody : ValidateInput (Body req)
                  = Err "invalid JSON: unexpected end of JSON input").
  { vm_compute. reflexivity. }
  split; [exact Htrig|]. split; [exact Hauth|]. split; [exact Hbody|].
  rewrite (proj1 (rejected_body_creates_nothing Sample.platform Sample.all_ok req
                    Sample.session _ Htrig Hauth Hbody)).
  reflexivity.
Defined.

Lemma team_creation_failure_witness :
  let req := Sample.request Sample.acme Sample.env in
  let t := trace_of Sample.platform (handleRequest req) Sample2.no_team in
  In (Err "team_limit") (team_outcomes t)
  /\ logs t = ["Error creating team: team_limit"].
Proof.
  intros req t.
  assert (Hteam : In (Err "team_limit") (team_outcomes t)).
  { vm_compute. left. reflexivity. }
  split; [exact Hteam|].
  exact (proj2 (proj2 (proj2 (team_creation_failure Sample.platform Sample2.no_team
                                req "team_limit" Hteam)))).
Defined.

Lemma success_response_content_witness :
  let req := Sample.request Sample.acme Sample.env in
  StatusCode (result_of Sample.platform (handleRequest req) Sample.all_ok) = 200
  /\ exists createdAt : string,
      clock_reads (trace_of Sample.platform (handleRequest req) Sample.all_ok)
      = [createdAt].
Proof.
  intros req.
  assert (Hstatus : StatusCode (result_of Sample.platform (handleRequest req)
                                          Sample.all_ok) = 200).
  { vm_compute. reflexivity. }
  split; [exact Hstatus|].
  destruct (success_response_content Sample.platform Sample.all_ok req Hstatus)
    as (sessionInfo & createReq & team & doc & createdAt & _ & _ & _ & _ & Hclock & _).
  exists createdAt. exact Hclock.
Defined.

Lemma webhook_configuration_does_not_change_result_witness :
  let req := Sample.request Sample.acme Sample.env in
  (forall k : string,
      k <> "WEBHOOK_URL" -> k <> "WEBHOOK_API_KEY" ->
      Sample.env_with_webhook !! k = Env req !! k)
  /\ result_of Sample.platform
               (handleRequest {| Headers := Headers req; Body := Body req;
                                 Env := Sample.env_with_webhook |}) Sample.all_ok
     = result_of Sample.platform (handleRequest req) Sample.all_ok.
Proof.
  intros req.
  assert (Hagree : forall k : string,
             k <> "WEBHOOK_URL" -> k <> "WEBHOOK_API_KEY" ->
             Sample.env_with_webhook !! k = Env req !! k).
  { intros k Hurl Hkey. unfold Sample.env_with_webhook.
    rewrite lookup_insert_ne by congruence. rewrite lookup_insert_ne by congruence.
    reflexivity. }
  split; [exact Hagree|].
  exact (webhook_configuration_does_not_change_result Sample.platform Sample.all_ok req
           Sample.env_with_webhook Hagree).
Defined.

Lemma decoded_payload_prints_response_witness :
  @json_Decode_AppwriteFunctionRequest Sample2.lib Sample2.stdin_text
  = Ok (Sample.request Sample.acme Sample.env)
  /\ length (stdout (trace_of Sample.platform (@main Sample2.lib Sample2.stdin_text)
                              Sample.all_ok)) = 1%nat.
Proof.
  assert (Hdecode : @json_Decode_AppwriteFunctionRequest Sample2.lib Sample2.stdin_text
                    = Ok (Sample.request Sample.acme Sample.env)).
  { reflexivity. }
  split; [exact Hdecode|].
  rewrite (@decoded_payload_prints_response Sample2.lib Sample.platform Sample.all_ok
             Sample2.stdin_text _ Hdecode).
  reflexivity.
Defined.

Lemma generateSlug_empty_iff_witness :
  forallb strings.isASCII (bytes "___") = true
  /\ generateSlug "___" = "".
Proof.
  assert (Hascii : forallb strings.isASCII (bytes "___") = true) by reflexivity.
  split; [exact Hascii|].
  exact (proj2 (generateSlug_empty_iff "___" Hascii) eq_refl).
Defined.

Lemma valid_name_slug_bound_witness :
  valid_name "Acme Corp" = true
  /\ (len (generateSlug "Acme Corp") <= 50)%nat.
Proof.
  assert (Hvalid : valid_name "Acme Corp" = true).
  { vm_compute. reflexivity. }
  split; [exact Hvalid|].
  exact (proj2 (proj2 (valid_name_slug_bound "Acme Corp" Hvalid))).
Defined.
